(** * File import: format detection, normalisation and reconciliation

    A shallow embedding of the import pipeline exercised by the parse-file
    test-suite of the budget server.  The test helper
    [importFileWithRealTime] is embedded from its source.  Its collaborators
    ([parseFile], [amountToInteger], date-fns, [reconcileTransactions]) are
    imported by that file and live elsewhere, so the helper is first stated
    over arbitrary collaborators and then composed with models of them that
    follow the written specification of the import core. *)

From Stdlib Require Import ZArith QArith List String Ascii Bool Arith Lia.
From Stdlib Require Import Decimal DecimalString DecimalN.
Import ListNotations.

Local Open Scope string_scope.
Local Open Scope Z_scope.

(* ===================================================================== *)
(** * Part I: definitions                                                 *)
(* ===================================================================== *)

(** ** Exceptions and results

    JavaScript exceptions raised by the pure steps of the pipeline.  The
    payload is the message of the error object. *)

Inductive Exn : Type :=
| RangeError (msg : string)
| TypeError (msg : string)
| ParseError (msg : string).

(** A computation that either raises or yields a value. *)
Definition Result (A : Type) : Type := (Exn + A)%type.

Definition ret {A : Type} (a : A) : Result A := inr a.
Definition throw {A : Type} (e : Exn) : Result A := inl e.

Definition bind {A B : Type} (m : Result A) (k : A -> Result B) : Result B :=
  match m with
  | inl e => inl e
  | inr a => k a
  end.

Notation "'let*' x ':=' m 'in' k" := (bind m (fun x => k))
  (at level 10, x name, m at level 100, k at level 200).

(** [Array.prototype.map] with a callback that may raise: elements are
    visited from index 0 upwards and the first exception aborts the map. *)
Fixpoint mapM {A B : Type} (f : A -> Result B) (l : list A) : Result (list B) :=
  match l with
  | [] => ret []
  | x :: r =>
      let* y := f x in
      let* ys := mapM f r in
      ret (y :: ys)
  end.

(** ** Strings *)

Definition isUpper (c : ascii) : bool :=
  let n := nat_of_ascii c in (65 <=? n)%nat && (n <=? 90)%nat.

Definition toLowerChar (c : ascii) : ascii :=
  if isUpper c then ascii_of_nat (nat_of_ascii c + 32) else c.

(** [String.prototype.toLowerCase] on the ASCII range. *)
Fixpoint toLowerCase (s : string) : string :=
  match s with
  | EmptyString => EmptyString
  | String c r => String (toLowerChar c) (toLowerCase r)
  end.

Definition isDot (c : ascii) : bool := Ascii.eqb c ".".

Fixpoint hasDot (s : string) : bool :=
  match s with
  | EmptyString => false
  | String c r => isDot c || hasDot r
  end.

(** ** Amounts

    [amountToInteger] is imported from shared/util and [integerToAmount] is
    its inverse there; neither is part of the file under study. *)

Module Amount.

(** A parsed decimal literal: value [(-1)^negative * mantissa / 10^scale]. *)
Record Decimal : Type := mkDecimal {
  negative : bool;
  mantissa : N;
  scale : nat
}.

(** The digits of a run of characters, [None] when a non-digit occurs. *)
Definition digits (s : string) : option N :=
  option_map N.of_uint (NilEmpty.uint_of_string s).

(** Split at the first dot: integer part and, when a dot is present, the
    fractional part. *)
Fixpoint splitDot (s : string) : string * option string :=
  match s with
  | EmptyString => (EmptyString, None)
  | String c r =>
      if isDot c then (EmptyString, Some r)
      else let '(i, f) := splitDot r in (String c i, f)
  end.

Definition nonEmpty (s : string) : bool :=
  match s with EmptyString => false | _ => true end.

(** Unsigned literal: [digits+] or [digits+ . digits+]. *)
Definition parseUnsigned (neg : bool) (s : string) : option Decimal :=
  match splitDot s with
  | (i, None) =>
      if nonEmpty i then option_map (fun m => mkDecimal neg m 0) (digits i)
      else None
  | (i, Some f) =>
      if nonEmpty i && nonEmpty f then
        match digits i, digits f with
        | Some a, Some b =>
            Some (mkDecimal neg (a * 10 ^ N.of_nat (String.length f) + b)
                            (String.length f))
        | _, _ => None
        end
      else None
  end.

(** Signed decimal literal with an optional leading [-] or [+]. *)
Definition parseDecimal (s : string) : option Decimal :=
  match s with
  | String "-" r => parseUnsigned true r
  | String "+" r => parseUnsigned false r
  | _ => parseUnsigned false s
  end.



(** Largest magnitude a JavaScript number holds exactly
    ([Number.MAX_SAFE_INTEGER]). *)
Definition MAX_SAFE_INTEGER : Z := 9007199254740991.

(** Magnitude in minor units at the fixed scale of two decimals, rounded
    half away from zero when the literal is finer than the scale. *)
Definition minorUnits (d : Decimal) : Z :=
  let p := Z.pow 10 (Z.of_nat (scale d)) in
  (2 * (Z.of_N (mantissa d) * 100) + p) / (2 * p).

(** Modelled from the spec: [amountToInteger] of shared/util, which is not
    among the sources.  "Parse the source numeric representation and convert
    to an integer count of minor units using a fixed scale (e.g. cents);
    reject non-numeric or overflowing input."  Rejection raises, since the
    caller stores the return value as the amount. *)
Definition amountToInteger (s : string) : Result Z :=
  match parseDecimal s with
  | None => throw (ParseError "Invalid amount")
  | Some d =>
      let c := minorUnits d in
      if c <=? MAX_SAFE_INTEGER
      then ret (if negative d then - c else c)
      else throw (ParseError "Amount out of range")
  end.

Definition digitChar (n : Z) : ascii := ascii_of_nat (48 + Z.to_nat n).

Definition twoDigits (r : Z) : string :=
  String (digitChar (r / 10)) (String (digitChar (r mod 10)) EmptyString).


Definition printNat (n : Z) : string :=
  NilEmpty.string_of_uint (N.to_uint (Z.to_N n)).

(** Modelled from the spec: the reformatting of an amount in minor units
    back to a decimal string at the same fixed scale ("reformatting back
    must reproduce the original decimal value"); it is not among the
    sources. *)
Definition integerToAmount (n : Z) : string :=
  let a := Z.abs n in
  (if n <? 0 then "-" else "")
    ++ printNat (a / 100) ++ "." ++ twoDigits (a mod 100).




End Amount.


(** ** Records of the pipeline *)

(** One entry of the [errors] array. *)
Record ImportError : Type := mkError { message : string }.

(** A transaction object as it travels from the parser to reconciliation.
    The helper rebuilds each object with the spread [{...trans, amount, date}],
    which changes the type of [amount] only; [A] is that type. *)
Record Trans (A : Type) : Type := mkTrans {
  amount : A;
  date : string;
  payee_name : string;
  imported_payee : string;
  notes : option string;
  imported_id : option string
}.

Arguments mkTrans {A}.
Arguments amount {A}.
Arguments date {A}.
Arguments payee_name {A}.
Arguments imported_payee {A}.
Arguments notes {A}.
Arguments imported_id {A}.

(** The second argument of [parseFile]: [{ importNotes: boolean }]. *)
Record Options : Type := mkOptions { importNotes : bool }.

(** What [parseFile] resolves to.  [transactions] may be absent, which the
    helper guards against with [if (transactions)]. *)
Record ParseResult : Type := mkParseResult {
  errors : list ImportError;
  transactions : option (list (Trans string))
}.

(** Deduplication key of a transaction. *)
Inductive ImportId : Type :=
| NativeId (account : string) (sourceId : string)
| Fingerprint (account : string) (day : string) (minor : Z)
              (payee : string) (occurrence : nat).

Definition importId_eqb (a b : ImportId) : bool :=
  match a, b with
  | NativeId a1 s1, NativeId a2 s2 => (a1 =? a2)%string && (s1 =? s2)%string
  | Fingerprint a1 d1 m1 p1 o1, Fingerprint a2 d2 m2 p2 o2 =>
      (a1 =? a2)%string && (d1 =? d2)%string && (m1 =? m2)
      && (p1 =? p2)%string && (o1 =? o2)%nat
  | _, _ => false
  end.

(** A row of the [transactions] table.  The test file's [Transaction] type
    lists [id], [amount], [date], [payee_name], [imported_payee] and [notes];
    [acct] is the column its query filters on, and the import key and the
    user-edited flag are the two columns reconciliation reads. *)
Module LedgerRow.
Record t : Type := mk {
  id : string;
  acct : string;
  amount : Z;
  date : string;
  payee_name : string;
  imported_payee : string;
  notes : option string;
  imported_id : option ImportId;
  user_edited : bool
}.
End LedgerRow.

Definition Ledger : Type := list LedgerRow.t.

(** [SELECT * FROM transactions WHERE acct = ?]. *)
Definition getTransactions (accountId : string) (db : Ledger) : Ledger :=
  filter (fun r => (LedgerRow.acct r =? accountId)%string) db.

(** An asynchronous call against the database: it resolves with a value or
    rejects with an exception, and leaves a ledger behind either way. *)
Inductive Outcome (A : Type) : Type :=
| Returned (a : A) (db : Ledger)
| Threw (e : Exn) (db : Ledger).

Arguments Returned {A}.
Arguments Threw {A}.

Definition ledgerOf {A : Type} (o : Outcome A) : Ledger :=
  match o with
  | Returned _ db => db
  | Threw _ db => db
  end.

(** What [reconcileTransactions] resolves to. *)
Record ReconcileResult : Type := mkReconcileResult {
  added : list string;
  updated : list string
}.

(** What [importFileWithRealTime] resolves to: [{ errors, added }]. *)
Record ImportResult : Type := mkImportResult {
  res_errors : list ImportError;
  res_added : list string
}.

(** ** The import helper (parse-file test, lines 41-72) *)

Section ImportFile.

(** Collaborators imported by the test file. *)
Variable parseFile : string -> option Options -> ParseResult.
Variable amountToInteger : string -> Result Z.
Variable reconcileTransactions :
  string -> option (list (Trans Z)) -> Ledger -> Outcome ReconcileResult.

(** date-fns.  [d_parse s fmt] is [d.parse(s, fmt, new Date())]; the reference
    date is the clock the harness has put back in place before the map runs,
    a constant here.  A failed parse yields an Invalid Date, on which
    [d_isValid] is false. *)
Variable JSDate : Type.
Variable d_isValid : JSDate -> bool.
Variable d_parse : string -> string -> JSDate.
Variable d_format : JSDate -> string -> string.

(** [d.format(date, fmt)]: date-fns raises a [RangeError] on an Invalid
    Date. *)
Definition format (dt : JSDate) (fmt : string) : Result string :=
  if d_isValid dt then ret (d_format dt fmt)
  else throw (RangeError "Invalid time value").

(** JavaScript truthiness of a string: only the empty string is falsy.  An
    absent [dateFormat] ([undefined], [null]) is falsy as well. *)
Definition truthy (s : string) : bool :=
  match s with
  | EmptyString => false
  | String _ _ => true
  end.

(** The callback of [transactions.map] (lines 58-64).  The object literal
    evaluates [amount] before [date]. *)
Definition normalizeTrans (dateFormat : option string) (trans : Trans string)
  : Result (Trans Z) :=
  let* a := amountToInteger (amount trans) in
  let* d := match dateFormat with
            | Some fmt =>
                if truthy fmt
                then format (d_parse (date trans) fmt) "yyyy-MM-dd"
                else ret (date trans)
            | None => ret (date trans)
            end in
  ret (mkTrans a d (payee_name trans) (imported_payee trans)
               (notes trans) (imported_id trans)).

(** Lines 55-65: the map runs when [transactions] is present. *)
Definition normalizeAll (dateFormat : option string)
  (originalTransactions : option (list (Trans string)))
  : Result (option (list (Trans Z))) :=
  match originalTransactions with
  | Some ts => let* ts' := mapM (normalizeTrans dateFormat) ts in ret (Some ts')
  | None => ret None
  end.

Definition importFileWithRealTime (accountId filepath : string)
  (dateFormat : option string) (options : option Options) (db : Ledger)
  : Outcome ImportResult :=
  let parsed := parseFile filepath options in
  match normalizeAll dateFormat (transactions parsed) with
  | inl e => Threw e db
  | inr txs =>
      if (0 <? List.length (errors parsed))%nat
      then Returned (mkImportResult (errors parsed) []) db
      else
        match reconcileTransactions accountId txs db with
        | Returned r db' => Returned (mkImportResult (errors parsed) (added r)) db'
        | Threw e db' => Threw e db'
        end
  end.

End ImportFile.

(** ** Format Detector and [parseFile] *)

Inductive Format : Type := QIF | OFX | QFX | CAMT.

(** Modelled from the spec: the extension the Format Detector looks at, the
    text after the last dot of the path ([None] when there is no dot), so
    that "arbitrary surrounding filename characters" are tolerated. *)
Fixpoint extension (path : string) : option string :=
  match path with
  | EmptyString => None
  | String c r =>
      match extension r with
      | Some e => Some e
      | None => if isDot c then Some r else None
      end
  end.

(** Modelled from the spec: the supported file categories, [.qif], [.ofx],
    [.qfx] and CAMT [.xml]. *)
Definition formatOfExtension (e : string) : option Format :=
  if (e =? "qif")%string then Some QIF
  else if (e =? "ofx")%string then Some OFX
  else if (e =? "qfx")%string then Some QFX
  else if (e =? "xml")%string then Some CAMT
  else None.

(** Modelled from the spec: the Format Detector of [parseFile] (module
    ./parse-file, not among the sources).  "Select a parser by extension,
    case-insensitively, tolerating unusual characters in the filename";
    supported are [.qif], [.ofx], [.qfx] and CAMT [.xml]. *)
Definition detectFormat (filepath : string) : option Format :=
  match extension filepath with
  | Some e => formatOfExtension (toLowerCase e)
  | None => None
  end.

(** A record as a format parser emits it: free-form date, signed decimal
    amount, payee, optional memo and optional source identifier, the text
    already decoded. *)
Record RawRecord : Type := mkRaw {
  raw_date : string;
  raw_amount : string;
  raw_payee : string;
  raw_memo : option string;
  raw_id : option string
}.

(** The parser interface: [parse(file) -> { errors, transactions }]. *)
Record ParserOutput : Type := mkParserOutput {
  parser_errors : list ImportError;
  parser_records : list RawRecord
}.

Definition notesEnabled (options : option Options) : bool :=
  match options with
  | Some o => importNotes o
  | None => false
  end.

(** Modelled from the spec: the notes toggle of the Normalizer inside
    [parseFile].  Notes are "populated from the source memo field only when
    note-import is enabled in configuration; otherwise forced to the
    empty/absent state regardless of source content". *)
Definition ofRaw (options : option Options) (r : RawRecord) : Trans string :=
  mkTrans (raw_amount r) (raw_date r) (raw_payee r) (raw_payee r)
          (if notesEnabled options then raw_memo r else None)
          (raw_id r).

Definition invalidFileType : ImportError := mkError "Invalid file type".

Section ParseFile.

(** The format parsers, one per format, each reading the file at the path. *)
Variable parsers : Format -> string -> ParserOutput.

(** Modelled from the spec: [parseFile] of ./parse-file, which is not among
    the sources.  An unsupported extension fails "before any parsing is
    attempted" with the single error "Invalid file type" and "zero partial
    results"; otherwise the selected parser runs and the notes toggle is
    applied to every record. *)
Definition parseFile (filepath : string) (options : option Options)
  : ParseResult :=
  match detectFormat filepath with
  | None => mkParseResult [invalidFileType] None
  | Some f =>
      let out := parsers f filepath in
      mkParseResult (parser_errors out)
                    (Some (map (ofRaw options) (parser_records out)))
  end.

End ParseFile.

(** ** Import-ID Assigner *)

(** Same visible fields: date, amount and payee. *)
Definition sameFields (a b : Trans Z) : bool :=
  (date a =? date b)%string && (amount a =? amount b)
  && (payee_name a =? payee_name b)%string.

Definition hasSourceId (t : Trans Z) : bool :=
  match imported_id t with Some _ => true | None => false end.

(** Number of earlier records without a source identifier that show the same
    fields as [t]. *)
Definition occurrencesIn (earlier : list (Trans Z)) (t : Trans Z) : nat :=
  List.length (filter (fun u => negb (hasSourceId u) && sameFields u t) earlier).

(** Modelled from the spec: the key of one record given the records before
    it in the file.  A native identifier is used "verbatim, scoped to the
    account"; otherwise the fingerprint is derived "from (accountId, date,
    amount, payee) plus an occurrence counter". *)
Definition importIdOf (accountId : string) (earlier : list (Trans Z))
  (t : Trans Z) : ImportId :=
  match imported_id t with
  | Some s => NativeId accountId s
  | None =>
      Fingerprint accountId (date t) (amount t) (payee_name t)
                  (occurrencesIn earlier t)
  end.

Fixpoint assignFrom (accountId : string) (earlier : list (Trans Z))
  (txs : list (Trans Z)) : list (Trans Z * ImportId) :=
  match txs with
  | [] => []
  | t :: r =>
      (t, importIdOf accountId earlier t)
        :: assignFrom accountId (earlier ++ [t])%list r
  end.

(** Modelled from the spec: the Import-ID Assigner over a whole file, in file
    order (it is not among the sources). *)
Definition assignImportIds (accountId : string) (txs : list (Trans Z))
  : list (Trans Z * ImportId) :=
  assignFrom accountId [] txs.

(** The keys of a file, in file order. *)
Definition keysOf (accountId : string) (txs : list (Trans Z)) : list ImportId :=
  map snd (assignImportIds accountId txs).

(** ** Reconciliation Engine *)

(** The ledger during one batch: every row with a mark telling whether it is
    still in the candidate pool.  Rows present before the batch start in the
    pool; a row leaves it when it is claimed, and rows inserted by the batch
    never enter it. *)
Definition Pool : Type := list (LedgerRow.t * bool).

Definition openPool (db : Ledger) : Pool := map (fun r => (r, true)) db.
Definition closePool (w : Pool) : Ledger := map fst w.

(** An entry that is out of the candidate pool. *)
Definition closed (e : LedgerRow.t * bool) : Prop := snd e = false.

Definition hasKey (k : ImportId) (r : LedgerRow.t) : bool :=
  match LedgerRow.imported_id r with
  | Some k' => importId_eqb k' k
  | None => false
  end.

Definition unreconciled (r : LedgerRow.t) : bool :=
  match LedgerRow.imported_id r with
  | Some _ => false
  | None => true
  end.

(** A row of the account carrying the key. *)
Definition rowKey (accountId : string) (k : ImportId) (r : LedgerRow.t) : bool :=
  (LedgerRow.acct r =? accountId)%string && hasKey k r.

(** An entry of the account that carries the key and is out of the pool. *)
Definition claimedKey (accountId : string) (k : ImportId) (e : LedgerRow.t * bool)
  : bool :=
  negb (snd e) && rowKey accountId k (fst e).

(** An incoming transaction keyed [k]. *)
Definition keyed (k : ImportId) (tk : Trans Z * ImportId) : bool :=
  importId_eqb k (snd tk).

Definition count {A : Type} (p : A -> bool) (l : list A) : nat :=
  List.length (filter p l).

(** Modelled from the spec: the step 1 candidate of the engine, a pooled row
    of the account with an "exact importId match". *)
Definition exactMatch (accountId : string) (k : ImportId) (e : LedgerRow.t * bool)
  : bool :=
  snd e && (LedgerRow.acct (fst e) =? accountId)%string && hasKey k (fst e).

(** Modelled from the spec: the update of a claimed row.  "If the existing
    row has not been user-edited, refresh non-identity fields (payee/notes)
    from the new data; otherwise leave the row untouched (user edits
    win)". *)
Definition refresh (t : Trans Z) (r : LedgerRow.t) : LedgerRow.t :=
  if LedgerRow.user_edited r then r
  else LedgerRow.mk (LedgerRow.id r) (LedgerRow.acct r) (LedgerRow.amount r) (LedgerRow.date r)
              (payee_name t) (LedgerRow.imported_payee r) (notes t)
              (LedgerRow.imported_id r) (LedgerRow.user_edited r).

(** Modelled from the spec: a fuzzy match "attaches the importId" to the
    manually entered row. *)
Definition attach (k : ImportId) (r : LedgerRow.t) : LedgerRow.t :=
  LedgerRow.mk (LedgerRow.id r) (LedgerRow.acct r) (LedgerRow.amount r) (LedgerRow.date r)
         (LedgerRow.payee_name r) (LedgerRow.imported_payee r) (LedgerRow.notes r)
         (Some k) (LedgerRow.user_edited r).



(** Claim the first entry satisfying [p]: it is rewritten by [upd] and leaves
    the pool.  Returns the row as it was, and the new state. *)
Fixpoint claimFirst (p : LedgerRow.t * bool -> bool) (upd : LedgerRow.t -> LedgerRow.t)
  (w : Pool) : option (LedgerRow.t * Pool) :=
  match w with
  | [] => None
  | e :: rest =>
      if p e then Some (fst e, (upd (fst e), false) :: rest)
      else
        match claimFirst p upd rest with
        | Some (r, rest') => Some (r, e :: rest')
        | None => None
        end
  end.

Definition recordAdded (i : string) (res : ReconcileResult) : ReconcileResult :=
  mkReconcileResult (added res ++ [i]) (updated res).

Definition recordUpdated (i : string) (res : ReconcileResult) : ReconcileResult :=
  mkReconcileResult (added res) (updated res ++ [i]).

Section Reconcile.

(** Fuzzy-matching configuration: the date tolerance window (same day by
    default) and the payee similarity test. *)
Variable dateClose : string -> string -> bool.
Variable payeeSimilar : string -> string -> bool.

(** The identity the storage engine assigns to a new row. *)
Variable newId : Ledger -> string.

(** Modelled from the spec: the step 2 candidate of the engine, a pooled,
    unreconciled row of the account with "same date +/- a small tolerance
    window, same amount, payee similarity above a threshold". *)
Definition fuzzyMatch (accountId : string) (t : Trans Z) (e : LedgerRow.t * bool)
  : bool :=
  snd e && (LedgerRow.acct (fst e) =? accountId)%string && unreconciled (fst e)
  && dateClose (LedgerRow.date (fst e)) (date t)
  && (LedgerRow.amount (fst e) =? amount t)
  && payeeSimilar (LedgerRow.payee_name (fst e)) (payee_name t).

(** Modelled from the spec: step 3 of the engine, "no match at all: insert a
    new LedgerTransaction". *)
Definition newRow (accountId : string) (t : Trans Z) (k : ImportId) (w : Pool)
  : LedgerRow.t :=
  LedgerRow.mk (newId (closePool w)) accountId (amount t) (date t) (payee_name t)
         (imported_payee t) (notes t) (Some k) false.

(** Modelled from the spec: one incoming transaction against the current
    state, steps 1 to 3 of the engine in that order; by step 4 a claimed row
    "is removed from the candidate pool for subsequent records in the same
    batch". *)
Definition reconcileOne (accountId : string) (t : Trans Z) (k : ImportId)
  (w : Pool) (res : ReconcileResult) : Pool * ReconcileResult :=
  match claimFirst (exactMatch accountId k) (refresh t) w with
  | Some (r, w') =>
      (w', if LedgerRow.user_edited r then res else recordUpdated (LedgerRow.id r) res)
  | None =>
      match claimFirst (fuzzyMatch accountId t)
                       (fun r => attach k (refresh t r)) w with
      | Some (r, w') => (w', recordUpdated (LedgerRow.id r) res)
      | None =>
          let r := newRow accountId t k w in
          ((w ++ [(r, false)])%list, recordAdded (LedgerRow.id r) res)
      end
  end.

Fixpoint reconcileAll (accountId : string) (tks : list (Trans Z * ImportId))
  (w : Pool) (res : ReconcileResult) : Pool * ReconcileResult :=
  match tks with
  | [] => (w, res)
  | (t, k) :: rest =>
      let '(w', res') := reconcileOne accountId t k w res in
      reconcileAll accountId rest w' res'
  end.

(** The three outcomes of one incoming transaction. *)
Inductive StepCase (accountId : string) (t : Trans Z) (k : ImportId)
  (w : Pool) (res : ReconcileResult) (w' : Pool) (res' : ReconcileResult)
  : Prop :=
| StepExact (l1 l2 : Pool) (r : LedgerRow.t) :
    w = (l1 ++ (r, true) :: l2)%list ->
    exactMatch accountId k (r, true) = true ->
    w' = (l1 ++ (refresh t r, false) :: l2)%list ->
    res' = (if LedgerRow.user_edited r then res else recordUpdated (LedgerRow.id r) res) ->
    StepCase accountId t k w res w' res'
| StepFuzzy (l1 l2 : Pool) (r : LedgerRow.t) :
    w = (l1 ++ (r, true) :: l2)%list ->
    Forall (fun x => exactMatch accountId k x = false) w ->
    fuzzyMatch accountId t (r, true) = true ->
    w' = (l1 ++ (attach k (refresh t r), false) :: l2)%list ->
    res' = recordUpdated (LedgerRow.id r) res ->
    StepCase accountId t k w res w' res'
| StepInsert :
    Forall (fun x => exactMatch accountId k x = false) w ->
    Forall (fun x => fuzzyMatch accountId t x = false) w ->
    w' = (w ++ [(newRow accountId t k w, false)])%list ->
    res' = recordAdded (LedgerRow.id (newRow accountId t k w)) res ->
    StepCase accountId t k w res w' res'.


(** How a pooled entry [e] looks once transaction [t] with key [k] has
    claimed it: [e'] is out of the pool, refreshed after an exact match, and
    refreshed with the key attached after a fuzzy match. *)
Definition claimedBy (accountId : string) (t : Trans Z) (k : ImportId)
  (e e' : LedgerRow.t * bool) : Prop :=
  snd e = true /\ snd e' = false
  /\ ((exactMatch accountId k e = true /\ fst e' = refresh t (fst e))
      \/ (fuzzyMatch accountId t e = true
          /\ fst e' = attach k (refresh t (fst e)))).

(** An entry before and after a whole batch: untouched, or claimed by one
    transaction of the batch. *)
Definition settled (accountId : string) (tks : list (Trans Z * ImportId))
  (e e' : LedgerRow.t * bool) : Prop :=
  e' = e \/ exists t k, In (t, k) tks /\ claimedBy accountId t k e e'.

(** The same on rows: a row of the ledger before and after a batch. *)
Definition rowSettled (accountId : string) (tks : list (Trans Z * ImportId))
  (r r' : LedgerRow.t) : Prop :=
  r' = r
  \/ exists t k,
       In (t, k) tks
       /\ ((exactMatch accountId k (r, true) = true /\ r' = refresh t r)
           \/ (fuzzyMatch accountId t (r, true) = true
               /\ r' = attach k (refresh t r))).

(** Modelled from the spec: the Reconciliation Engine (section 4.3), keys
    assigned first, then every transaction in file order. *)
Definition reconcile (accountId : string) (txs : list (Trans Z)) (db : Ledger)
  : ReconcileResult * Ledger :=
  let '(w, res) :=
    reconcileAll accountId (assignImportIds accountId txs) (openPool db)
                 (mkReconcileResult [] []) in
  (res, closePool w).

(** Modelled from the spec: [reconcileTransactions] of accounts/sync, which
    is not among the sources.  Its contract takes "an ordered sequence";
    iterating an absent one raises. *)
Definition reconcileTransactions (accountId : string)
  (txs : option (list (Trans Z))) (db : Ledger) : Outcome ReconcileResult :=
  match txs with
  | Some l => let '(res, db') := reconcile accountId l db in Returned res db'
  | None => Threw (TypeError "transactions is not iterable") db
  end.

End Reconcile.

(** ** The whole pipeline *)

Section Pipeline.

Variable parsers : Format -> string -> ParserOutput.
Variable dateClose : string -> string -> bool.
Variable payeeSimilar : string -> string -> bool.
Variable newId : Ledger -> string.
Variable JSDate : Type.
Variable d_isValid : JSDate -> bool.
Variable d_parse : string -> string -> JSDate.
Variable d_format : JSDate -> string -> string.

(** The helper with the modelled collaborators plugged in. *)
Definition importFile : string -> string -> option string -> option Options
  -> Ledger -> Outcome ImportResult :=
  importFileWithRealTime (parseFile parsers) Amount.amountToInteger
    (reconcileTransactions dateClose payeeSimilar newId)
    JSDate d_isValid d_parse d_format.

(** The ways out of an import. *)
Inductive ImportCase (accountId filepath : string) (dateFormat : option string)
  (options : option Options) (db : Ledger) (out : Outcome ImportResult) : Prop :=
| ImportRaised (e : Exn) :
    normalizeAll Amount.amountToInteger JSDate d_isValid d_parse d_format
                 dateFormat (transactions (parseFile parsers filepath options))
    = inl e ->
    out = Threw e db ->
    ImportCase accountId filepath dateFormat options db out
| ImportGated (txs : option (list (Trans Z))) :
    normalizeAll Amount.amountToInteger JSDate d_isValid d_parse d_format
                 dateFormat (transactions (parseFile parsers filepath options))
    = inr txs ->
    errors (parseFile parsers filepath options) <> [] ->
    out = Returned (mkImportResult (errors (parseFile parsers filepath options)) []) db ->
    ImportCase accountId filepath dateFormat options db out
| ImportReconciled (f : Format) (txs : list (Trans Z))
                   (res : ReconcileResult) (db' : Ledger) :
    detectFormat filepath = Some f ->
    parser_errors (parsers f filepath) = [] ->
    mapM (normalizeTrans Amount.amountToInteger JSDate d_isValid d_parse
                         d_format dateFormat)
         (map (ofRaw options) (parser_records (parsers f filepath))) = inr txs ->
    reconcile dateClose payeeSimilar newId accountId txs db = (res, db') ->
    out = Returned (mkImportResult [] (added res)) db' ->
    ImportCase accountId filepath dateFormat options db out.

End Pipeline.

(** ** Sample collaborators

    Concrete stand-ins for the collaborators that live outside the pipeline:
    format parsers answering for a handful of files, the answers of date-fns
    on the calls made for those files, and a fuzzy-matching configuration.
    They serve the worked examples only; the properties of Part II are
    stated for arbitrary collaborators. *)

Module Sample.

Inductive JSDate : Type :=
| ValidDate (year month day : Z)
| InvalidDate.

Definition d_isValid (dt : JSDate) : bool :=
  match dt with
  | ValidDate _ _ _ => true
  | InvalidDate => false
  end.

(** [d.parse] on the calls the examples make.  ["not a date"] does not match
    the pattern, so date-fns answers Invalid Date for it; calls outside this
    table do not occur below. *)
Definition d_parse (s fmt : string) : JSDate :=
  if (fmt =? "yyyy-MM-dd")%string && (s =? "2017-10-11")%string
  then ValidDate 2017 10 11
  else if (fmt =? "yyyy-MM-dd")%string && (s =? "2017-10-12")%string
  then ValidDate 2017 10 12
  else InvalidDate.

(** [d.format] with the pattern ['yyyy-MM-dd'], the only one requested, on
    years of at most four digits. *)
Definition d_format (dt : JSDate) (fmt : string) : string :=
  match dt with
  | ValidDate y m d =>
      Amount.twoDigits (y / 100) ++ Amount.twoDigits (y mod 100) ++ "-"
        ++ Amount.twoDigits m ++ "-" ++ Amount.twoDigits d
  | InvalidDate => "Invalid Date"
  end.

Definition coffee : RawRecord :=
  mkRaw "2017-10-11" "-4.50" "Corner Cafe" (Some "Latte") None.

Definition rent : RawRecord :=
  mkRaw "2017-10-12" "-950.00" "Landlord" (Some "October") (Some "FIT-0002").

Definition salary : RawRecord :=
  mkRaw "2017-10-12" "2100.00" "Employer" None (Some "FIT-0003").

Definition undated : RawRecord :=
  mkRaw "not a date" "-1.00" "Kiosk" None None.

Definition unreadable : ImportError := mkError "Unable to parse record".

(** Format parsers, answering by file name. *)
Definition parsers (f : Format) (filepath : string) : ParserOutput :=
  if (filepath =? "mocks/files/data.ofx")%string
  then mkParserOutput [] [rent; salary]
  else if (filepath =? "mocks/files/big.data.QiF")%string
  then mkParserOutput [] [coffee; coffee; rent]
  else if (filepath =? "mocks/files/best.data-ever$.QFX")%string
  then mkParserOutput [] [salary]
  else if (filepath =? "mocks/files/partial.qif")%string
  then mkParserOutput [unreadable] [coffee]
  else if (filepath =? "mocks/files/undated.qif")%string
  then mkParserOutput [] [coffee; undated]
  else if (filepath =? "mocks/files/broken.qif")%string
  then mkParserOutput [unreadable] [undated]
  else mkParserOutput [] [].

(** Same-day tolerance and payee equality for fuzzy matching. *)
Definition dateClose (a b : string) : bool := (a =? b)%string.
Definition payeeSimilar (a b : string) : bool := (a =? b)%string.

Definition newId (db : Ledger) : string :=
  "row-" ++ Amount.printNat (Z.of_nat (List.length db)).

Definition import : string -> string -> option string -> option Options
  -> Ledger -> Outcome ImportResult :=
  importFile parsers dateClose payeeSimilar newId
             JSDate d_isValid d_parse d_format.

(** A row typed in by hand before the bank feed caught up, then edited. *)
Definition manualCoffee : LedgerRow.t :=
  LedgerRow.mk "row-manual" "one" (-450) "2017-10-11" "Corner Cafe" "" (Some "my note")
         None true.

End Sample.

(** ** The database statements of the test file *)

(** [DELETE FROM transactions WHERE acct = ?], which the notes test runs
    between its two imports (line 147). *)
Definition deleteTransactions (accountId : string) (db : Ledger) : Ledger :=
  filter (fun r => negb (LedgerRow.acct r =? accountId)%string) db.

(** ** What the map makes of one record *)

Section Normalized.

Variable amountToInteger : string -> Result Z.
Variable JSDate : Type.
Variable d_isValid : JSDate -> bool.
Variable d_parse : string -> string -> JSDate.
Variable d_format : JSDate -> string -> string.

(** The pattern the conditional of line 61 takes into account: a truthy
    [dateFormat], if any. *)
Definition patternOf (dateFormat : option string) : option string :=
  match dateFormat with
  | Some fmt => if truthy fmt then Some fmt else None
  | None => None
  end.

(** The date of the rebuilt object (lines 61-63). *)
Definition normalizedDate (dateFormat : option string) (s : string) : string :=
  match patternOf dateFormat with
  | Some fmt => d_format (d_parse s fmt) "yyyy-MM-dd"
  | None => s
  end.

(** The dates on which [d.format] does not raise. *)
Definition dateAccepted (dateFormat : option string) (s : string) : bool :=
  match patternOf dateFormat with
  | Some fmt => d_isValid (d_parse s fmt)
  | None => true
  end.

(** [y] is the object the callback of lines 58-64 builds from [x]. *)
Definition normalizedFrom (dateFormat : option string)
  (x : Trans string) (y : Trans Z) : Prop :=
  amountToInteger (amount x) = inr (amount y)
  /\ dateAccepted dateFormat (date x) = true
  /\ date y = normalizedDate dateFormat (date x)
  /\ payee_name y = payee_name x
  /\ imported_payee y = imported_payee x
  /\ notes y = notes x
  /\ imported_id y = imported_id x.

End Normalized.

(* ===================================================================== *)
(** * Part II: properties                                                 *)
(* ===================================================================== *)

(** ** Amounts: parsing what the formatter prints *)

Module AmountFacts.
Import Amount.





















End AmountFacts.


(** ** The import helper over arbitrary collaborators *)

Section ImportFileFacts.

Variable parseFile : string -> option Options -> ParseResult.
Variable amountToInteger : string -> Result Z.
Variable reconcileTransactions :
  string -> option (list (Trans Z)) -> Ledger -> Outcome ReconcileResult.
Variable JSDate : Type.
Variable d_isValid : JSDate -> bool.
Variable d_parse : string -> string -> JSDate.
Variable d_format : JSDate -> string -> string.

#[local] Abbreviation normalize :=
  (normalizeTrans amountToInteger JSDate d_isValid d_parse d_format).
#[local] Abbreviation normalizeBatch :=
  (normalizeAll amountToInteger JSDate d_isValid d_parse d_format).
#[local] Abbreviation importWith reconcileFn :=
  (importFileWithRealTime parseFile amountToInteger reconcileFn
                          JSDate d_isValid d_parse d_format).

Lemma length_pos_nonempty {A : Type} (l : list A) :
  l <> [] -> (0 <? List.length l)%nat = true.
Proof. destruct l; [congruence | reflexivity]. Qed.

Lemma mapM_stops {A B : Type} (f : A -> Result B) pre pre' x e post :
  mapM f pre = inr pre' -> f x = inl e -> mapM f (pre ++ x :: post) = inl e.
Proof.
  revert pre'. induction pre as [|p pre IH]; intros pre' Hpre Hx; simpl.
  - rewrite Hx. reflexivity.
  - simpl in Hpre. destruct (f p) as [e0|y]; [discriminate|]. simpl in *.
    destruct (mapM f pre) as [e1|ys]; [discriminate|].
    rewrite (IH ys eq_refl Hx). reflexivity.
Qed.

Lemma mapM_Forall2 {A B : Type} (f : A -> Result B) l l' :
  mapM f l = inr l' -> Forall2 (fun x y => f x = inr y) l l'.
Proof.
  revert l'. induction l as [|x l IH]; simpl; intros l' H.
  - injection H as <-. constructor.
  - destruct (f x) as [e|y] eqn:Fx; [discriminate|]. simpl in H.
    destruct (mapM f l) as [e|ys]; [discriminate|]. simpl in H.
    injection H as <-. constructor; auto.
Qed.

(** The three ways out of the helper. *)
Lemma import_threw reconcileFn accountId filepath dateFormat options db e :
  normalizeBatch dateFormat (transactions (parseFile filepath options)) = inl e ->
  importWith reconcileFn accountId filepath dateFormat options db = Threw e db.
Proof.
  unfold importFileWithRealTime.
  intros ->. reflexivity.
Qed.

Lemma import_gated reconcileFn accountId filepath dateFormat options db txs :
  normalizeBatch dateFormat (transactions (parseFile filepath options)) = inr txs ->
  errors (parseFile filepath options) <> [] ->
  importWith reconcileFn accountId filepath dateFormat options db
  = Returned (mkImportResult (errors (parseFile filepath options)) []) db.
Proof.
  unfold importFileWithRealTime.
  intros -> He. rewrite (length_pos_nonempty _ He). reflexivity.
Qed.

Lemma import_clean reconcileFn accountId filepath dateFormat options db txs :
  normalizeBatch dateFormat (transactions (parseFile filepath options)) = inr txs ->
  errors (parseFile filepath options) = [] ->
  importWith reconcileFn accountId filepath dateFormat options db
  = match reconcileFn accountId txs db with
    | Returned r db' => Returned (mkImportResult [] (added r)) db'
    | Threw e db' => Threw e db'
    end.
Proof.
  unfold importFileWithRealTime.
  intros -> He. rewrite He. reflexivity.
Qed.

Lemma import_errors_frame reconcileFn accountId filepath dateFormat options db :
  errors (parseFile filepath options) <> [] ->
  ledgerOf (importWith reconcileFn accountId filepath dateFormat options db) = db.
Proof.
  intros He.
  destruct (normalizeBatch dateFormat (transactions (parseFile filepath options)))
    as [e|txs] eqn:N.
  - rewrite (import_threw _ _ _ _ _ _ _ N). reflexivity.
  - rewrite (import_gated _ _ _ _ _ _ _ N He). reflexivity.
Qed.

Lemma import_errors_any_reconcile f g accountId filepath dateFormat options db :
  errors (parseFile filepath options) <> [] ->
  importWith f accountId filepath dateFormat options db
  = importWith g accountId filepath dateFormat options db.
Proof.
  intros He.
  destruct (normalizeBatch dateFormat (transactions (parseFile filepath options)))
    as [e|txs] eqn:N.
  - now rewrite !(import_threw _ _ _ _ _ _ _ N).
  - now rewrite !(import_gated _ _ _ _ _ _ _ N He).
Qed.

(** The date of a normalised record. *)
Lemma normalize_date_parsed trans a fmt :
  amountToInteger (amount trans) = inr a ->
  truthy fmt = true ->
  d_isValid (d_parse (date trans) fmt) = true ->
  normalize (Some fmt) trans
  = inr (mkTrans a (d_format (d_parse (date trans) fmt) "yyyy-MM-dd")
                 (payee_name trans) (imported_payee trans)
                 (notes trans) (imported_id trans)).
Proof.
  intros Ha Hf Hv. unfold normalizeTrans, format.
  rewrite Ha, Hf, Hv. reflexivity.
Qed.

Lemma normalize_date_kept trans a dateFormat :
  amountToInteger (amount trans) = inr a ->
  dateFormat = None \/ dateFormat = Some "" ->
  normalize dateFormat trans
  = inr (mkTrans a (date trans) (payee_name trans) (imported_payee trans)
                 (notes trans) (imported_id trans)).
Proof.
  intros Ha [-> | ->]; unfold normalizeTrans; rewrite Ha;
    reflexivity.
Qed.

Lemma normalize_date_invalid trans a fmt :
  amountToInteger (amount trans) = inr a ->
  truthy fmt = true ->
  d_isValid (d_parse (date trans) fmt) = false ->
  normalize (Some fmt) trans = inl (RangeError "Invalid time value").
Proof.
  intros Ha Hf Hv. unfold normalizeTrans, format.
  rewrite Ha, Hf, Hv. reflexivity.
Qed.

End ImportFileFacts.

(** ** Format Detector *)

Lemma extension_none (s : string) : hasDot s = false -> extension s = None.
Proof.
  induction s as [|c r IH]; simpl; intros H; [reflexivity|].
  apply orb_false_iff in H. destruct H as [Hc Hr].
  rewrite (IH Hr), Hc. reflexivity.
Qed.

(** Whatever precedes the last dot, dots included, is ignored. *)
Lemma extension_app (base e : string) :
  hasDot e = false -> extension (base ++ String "." e) = Some e.
Proof.
  intros He. induction base as [|c r IH]; simpl.
  - rewrite (extension_none _ He). reflexivity.
  - rewrite IH. reflexivity.
Qed.

Lemma detectFormat_app (base e : string) (f : Format) :
  hasDot e = false ->
  formatOfExtension (toLowerCase e) = Some f ->
  detectFormat (base ++ String "." e) = Some f.
Proof.
  intros He Hf. unfold detectFormat. rewrite (extension_app _ _ He). exact Hf.
Qed.

Lemma detectFormat_unsupported (filepath : string) :
  (forall e, extension filepath = Some e ->
             formatOfExtension (toLowerCase e) = None) ->
  detectFormat filepath = None.
Proof.
  intros H. unfold detectFormat.
  destruct (extension filepath) as [e|]; [apply H|]; reflexivity.
Qed.

Section ParseFileFacts.

Variable parsers : Format -> string -> ParserOutput.

Lemma parseFile_unsupported filepath options :
  detectFormat filepath = None ->
  parseFile parsers filepath options = mkParseResult [invalidFileType] None.
Proof. unfold parseFile. intros ->. reflexivity. Qed.

Lemma parseFile_supported filepath options f :
  detectFormat filepath = Some f ->
  parseFile parsers filepath options
  = mkParseResult (parser_errors (parsers f filepath))
      (Some (map (ofRaw options) (parser_records (parsers f filepath)))).
Proof. unfold parseFile. intros ->. reflexivity. Qed.

(** Without errors [parseFile] always hands over a list of transactions. *)
Lemma parseFile_clean_some filepath options :
  errors (parseFile parsers filepath options) = [] ->
  exists f,
    detectFormat filepath = Some f
    /\ parser_errors (parsers f filepath) = []
    /\ transactions (parseFile parsers filepath options)
       = Some (map (ofRaw options) (parser_records (parsers f filepath))).
Proof.
  unfold parseFile. destruct (detectFormat filepath) as [f|]; simpl.
  - intros H. exists f. auto.
  - discriminate.
Qed.

Lemma ofRaw_notes_off options r :
  notesEnabled options = false -> notes (ofRaw options r) = None.
Proof. unfold ofRaw. intros ->. reflexivity. Qed.


End ParseFileFacts.

(** ** Import-ID Assigner *)

Local Open Scope list_scope.

Lemma importId_eqb_eq (a b : ImportId) : importId_eqb a b = true <-> a = b.
Proof.
  destruct a, b; simpl; split; intros H; try discriminate;
    repeat rewrite andb_true_iff in *.
  - destruct H as [H1 H2]. apply String.eqb_eq in H1, H2. congruence.
  - injection H as -> ->. now rewrite !String.eqb_refl.
  - destruct H as [[[[H1 H2] H3] H4] H5].
    apply String.eqb_eq in H1, H2, H4. apply Z.eqb_eq in H3.
    apply Nat.eqb_eq in H5. congruence.
  - injection H as -> -> -> -> ->.
    now rewrite !String.eqb_refl, Z.eqb_refl, Nat.eqb_refl.
Qed.

Lemma importId_eqb_refl (a : ImportId) : importId_eqb a a = true.
Proof. now apply importId_eqb_eq. Qed.






Lemma assignFrom_fst accountId earlier txs :
  map fst (assignFrom accountId earlier txs) = txs.
Proof.
  revert earlier. induction txs as [|t r IH]; intros earlier; simpl;
    [reflexivity | now rewrite IH].
Qed.









(** ** Reconciliation Engine *)

Lemma claimFirst_split p upd w r w' :
  claimFirst p upd w = Some (r, w') ->
  exists l1 b l2,
    w = (l1 ++ (r, b) :: l2)%list
    /\ w' = (l1 ++ (upd r, false) :: l2)%list
    /\ p (r, b) = true
    /\ Forall (fun x => p x = false) l1.
Proof.
  revert r w'. induction w as [|e rest IH]; simpl; intros r w' H;
    [discriminate|].
  destruct (p e) eqn:Pe.
  - injection H as <- <-. exists [], (snd e), rest.
    destruct e as [x b]. simpl. auto.
  - destruct (claimFirst p upd rest) as [[r0 rest']|] eqn:C; [|discriminate].
    injection H as <- <-.
    destruct (IH _ _ eq_refl) as (l1 & b & l2 & -> & -> & Hp & Hl).
    exists (e :: l1), b, l2. simpl. auto.
Qed.

Lemma claimFirst_none p upd w :
  claimFirst p upd w = None <-> Forall (fun x => p x = false) w.
Proof.
  induction w as [|e rest IH]; simpl.
  - split; auto.
  - destruct (p e) eqn:Pe.
    + split; [discriminate|]. intros H. inversion H; congruence.
    + destruct (claimFirst p upd rest) as [[r0 rest']|].
      * split; [discriminate|]. intros H. inversion H; subst.
        apply IH in H3. discriminate.
      * split; auto. intros _. constructor; [exact Pe | now apply IH].
Qed.

(** A closed suffix is out of reach of a split at a pooled entry. *)
Lemma split_before_closed (l1 l2 kept ins : Pool) (r : LedgerRow.t) :
  Forall closed ins ->
  (l1 ++ (r, true) :: l2 = kept ++ ins)%list ->
  exists l2', kept = (l1 ++ (r, true) :: l2')%list /\ l2 = (l2' ++ ins)%list.
Proof.
  intros Hc. revert kept. induction l1 as [|y l1 IH]; intros kept H.
  - destruct kept as [|x kept]; simpl in H.
    + subst ins. inversion Hc; subst. discriminate.
    + injection H as <- ->. exists kept. auto.
  - destruct kept as [|x kept]; simpl in H.
    + subst ins. inversion Hc; subst. rewrite Forall_forall in H2.
      specialize (H2 (r, true)). unfold closed in H2. simpl in H2.
      assert (true = false) by (apply H2; apply in_or_app; right; now left).
      discriminate.
    + injection H as <- H. destruct (IH _ H) as (l2' & -> & ->).
      exists l2'. auto.
Qed.

Section ReconcileFacts.

Variable dateClose : string -> string -> bool.
Variable payeeSimilar : string -> string -> bool.
Variable newId : Ledger -> string.

#[local] Abbreviation fuzzy := (fuzzyMatch dateClose payeeSimilar).
#[local] Abbreviation fresh := (newRow newId).
#[local] Abbreviation step := (reconcileOne dateClose payeeSimilar newId).
#[local] Abbreviation run := (reconcileAll dateClose payeeSimilar newId).
#[local] Abbreviation claimed := (claimedBy dateClose payeeSimilar).
#[local] Abbreviation settledBy := (settled dateClose payeeSimilar).

Lemma exactMatch_pooled accountId k e : exactMatch accountId k e = true -> snd e = true.
Proof. unfold exactMatch. destruct (snd e); [auto | discriminate]. Qed.

Lemma fuzzyMatch_pooled accountId t e : fuzzy accountId t e = true -> snd e = true.
Proof. unfold fuzzyMatch. destruct (snd e); [auto | discriminate]. Qed.

Lemma reconcileOne_cases accountId t k w res w' res' :
  step accountId t k w res = (w', res') ->
  StepCase dateClose payeeSimilar newId accountId t k w res w' res'.
Proof.
  unfold reconcileOne.
  destruct (claimFirst (exactMatch accountId k) (refresh t) w)
    as [[r w1]|] eqn:C1.
  - intros H. injection H as <- <-.
    destruct (claimFirst_split _ _ _ _ _ C1) as (l1 & b & l2 & -> & -> & Hp & _).
    pose proof (exactMatch_pooled _ _ _ Hp) as Hb. simpl in Hb. subst b.
    eapply StepExact; eauto.
  - apply claimFirst_none in C1.
    destruct (claimFirst (fuzzy accountId t)
                (fun r => attach k (refresh t r)) w) as [[r w1]|] eqn:C2.
    + intros H. injection H as <- <-.
      destruct (claimFirst_split _ _ _ _ _ C2) as (l1 & b & l2 & -> & -> & Hp & _).
      pose proof (fuzzyMatch_pooled _ _ _ Hp) as Hb. simpl in Hb. subst b.
      eapply StepFuzzy; eauto.
    + apply claimFirst_none in C2. intros H. injection H as <- <-.
      eapply StepInsert; eauto.
Qed.


(** *** Shape of the ledger after a batch

    Rows present before the batch keep their positions; inserted rows are
    appended behind them. *)

Lemma Forall2_refl_on {A : Type} (R : A -> A -> Prop) (l : list A) :
  (forall x, R x x) -> Forall2 R l l.
Proof. intros H. induction l; constructor; auto. Qed.

Lemma Forall2_compose {A : Type} (R S T : A -> A -> Prop) (l1 l2 l3 : list A) :
  (forall a b c, R a b -> S b c -> T a c) ->
  Forall2 R l1 l2 -> Forall2 S l2 l3 -> Forall2 T l1 l3.
Proof.
  intros H H12. revert l3. induction H12; intros l3 H23; inversion H23; subst;
    constructor; eauto.
Qed.

Lemma reconcileOne_shape accountId t k (kept ins : Pool) res w' res' :
  Forall closed ins ->
  step accountId t k (kept ++ ins) res = (w', res') ->
  exists kept' new,
    w' = (kept' ++ ins ++ new)%list
    /\ Forall2 (settledBy accountId [(t, k)]) kept kept'
    /\ added res' = (added res ++ map (fun e => LedgerRow.id (fst e)) new)%list
    /\ (new = [] \/ new = [(fresh accountId t k (kept ++ ins), false)]).
Proof.
  intros Hc H. apply reconcileOne_cases in H.
  destruct H as [l1 l2 r Hw Hm -> -> | l1 l2 r Hw _ Hm -> -> | _ _ -> ->].
  - destruct (split_before_closed _ _ _ _ _ Hc (eq_sym Hw)) as (l2' & -> & ->).
    exists (l1 ++ (refresh t r, false) :: l2')%list, [].
    split; [now rewrite app_nil_r, <- app_assoc|].
    split.
    + apply Forall2_app; [apply Forall2_refl_on; now left|].
      constructor; [|apply Forall2_refl_on; now left].
      right. exists t, k. split; [now left|].
      unfold claimedBy. simpl. auto.
    + split; [|now left]. simpl. rewrite app_nil_r.
      now destruct (LedgerRow.user_edited r).
  - destruct (split_before_closed _ _ _ _ _ Hc (eq_sym Hw)) as (l2' & -> & ->).
    exists (l1 ++ (attach k (refresh t r), false) :: l2')%list, [].
    split; [now rewrite app_nil_r, <- app_assoc|].
    split.
    + apply Forall2_app; [apply Forall2_refl_on; now left|].
      constructor; [|apply Forall2_refl_on; now left].
      right. exists t, k. split; [now left|].
      unfold claimedBy. simpl. auto.
    + split; [|now left]. simpl. now rewrite app_nil_r.
  - exists kept, [(fresh accountId t k (kept ++ ins), false)].
    split; [now rewrite app_assoc|].
    split; [apply Forall2_refl_on; now left|].
    split; [reflexivity | now right].
Qed.

Lemma settled_cons accountId t k rest e e1 e' :
  settledBy accountId [(t, k)] e e1 ->
  settledBy accountId rest e1 e' ->
  settledBy accountId ((t, k) :: rest) e e'.
Proof.
  intros [-> | (t0 & k0 & [E | []] & C)] S.
  - destruct S as [-> | (t1 & k1 & I & C1)]; [now left|].
    right. exists t1, k1. split; [now right | exact C1].
  - injection E as <- <-.
    destruct S as [-> | (t1 & k1 & _ & C1)].
    + right. exists t, k. split; [now left | exact C].
    + destruct C as (_ & F & _). destruct C1 as (T & _). congruence.
Qed.

Lemma reconcileAll_shape accountId tks :
  forall (kept ins : Pool) res w' res',
    Forall closed ins ->
    run accountId tks (kept ++ ins) res = (w', res') ->
    exists kept' new,
      w' = (kept' ++ ins ++ new)%list
      /\ Forall2 (settledBy accountId tks) kept kept'
      /\ Forall closed new
      /\ added res' = (added res ++ map (fun e => LedgerRow.id (fst e)) new)%list
      /\ Forall (fun e => exists t k w, In (t, k) tks
                                       /\ fst e = fresh accountId t k w) new.
Proof.
  induction tks as [|[t k] rest IH]; intros kept ins res w' res' Hc H; simpl in H.
  - injection H as <- <-. exists kept, [].
    rewrite !app_nil_r. repeat split; auto.
    apply Forall2_refl_on. now left.
  - destruct (step accountId t k (kept ++ ins) res) as [w1 res1] eqn:S.
    destruct (reconcileOne_shape _ _ _ _ _ _ _ _ Hc S)
      as (kept1 & new1 & -> & F1 & A1 & N1).
    assert (Hc1 : Forall closed (ins ++ new1)).
    { apply Forall_app. split; [exact Hc|].
      destruct N1 as [-> | ->]; repeat constructor. }
    destruct (IH _ _ _ _ _ Hc1 H) as (kept' & new2 & -> & F2 & C2 & A2 & P2).
    exists kept', (new1 ++ new2)%list.
    split; [now rewrite <- !app_assoc|].
    split.
    { eapply Forall2_compose; [|exact F1|exact F2].
      intros a b c. apply settled_cons. }
    split.
    { apply Forall_app. split; [|exact C2].
      destruct N1 as [-> | ->]; repeat constructor. }
    split.
    { rewrite A2, A1, map_app, <- app_assoc. reflexivity. }
    apply Forall_app. split.
    + destruct N1 as [-> | ->]; constructor; [|constructor].
      exists t, k, (kept ++ ins)%list. split; [now left | reflexivity].
    + eapply Forall_impl; [|exact P2].
      intros e (t0 & k0 & w0 & I & E). exists t0, k0, w0. split; [now right | exact E].
Qed.


(** *** Keys claimed during a batch *)

Lemma count_app {A : Type} (p : A -> bool) (l1 l2 : list A) :
  count p (l1 ++ l2) = (count p l1 + count p l2)%nat.
Proof. unfold count. now rewrite filter_app, length_app. Qed.

Lemma count_cons {A : Type} (p : A -> bool) (x : A) (l : list A) :
  count p (x :: l) = ((if p x then 1 else 0) + count p l)%nat.
Proof. unfold count. simpl. now destruct (p x). Qed.

Lemma count_pos_Exists {A : Type} (p : A -> bool) (l : list A) :
  (0 < count p l)%nat -> Exists (fun x => p x = true) l.
Proof.
  induction l as [|x l IH]; rewrite ?count_cons; [unfold count; simpl; lia|].
  destruct (p x) eqn:E; [now left | right; apply IH; lia].
Qed.

Lemma count_zero_Forall {A : Type} (p : A -> bool) (l : list A) :
  Forall (fun x => p x = false) l -> count p l = 0%nat.
Proof.
  induction 1 as [|x l Hx _ IH]; [reflexivity|].
  rewrite count_cons, Hx, IH. reflexivity.
Qed.

Lemma importId_eqb_sym (a b : ImportId) : importId_eqb a b = importId_eqb b a.
Proof.
  destruct (importId_eqb a b) eqn:E1, (importId_eqb b a) eqn:E2; auto.
  - apply importId_eqb_eq in E1. subst. now rewrite importId_eqb_refl in E2.
  - apply importId_eqb_eq in E2. subst. now rewrite importId_eqb_refl in E1.
Qed.

(** A row carrying [k] carries [k'] exactly when the two keys are equal. *)
Lemma hasKey_other k k' r :
  hasKey k r = true -> hasKey k' r = importId_eqb k' k.
Proof.
  unfold hasKey. destruct (LedgerRow.imported_id r) as [k0|]; [|discriminate].
  intros H. apply importId_eqb_eq in H. subst. apply importId_eqb_sym.
Qed.

Lemma exactMatch_rowKey accountId k r :
  exactMatch accountId k (r, true) = rowKey accountId k r.
Proof. reflexivity. Qed.

Lemma rowKey_other accountId k k' r :
  rowKey accountId k r = true ->
  rowKey accountId k' r = importId_eqb k' k.
Proof.
  unfold rowKey. intros H. apply andb_true_iff in H. destruct H as [Ha Hk].
  now rewrite Ha, (hasKey_other _ k' _ Hk).
Qed.

Lemma refresh_identity t r :
  LedgerRow.id (refresh t r) = LedgerRow.id r
  /\ LedgerRow.acct (refresh t r) = LedgerRow.acct r
  /\ LedgerRow.imported_id (refresh t r) = LedgerRow.imported_id r
  /\ LedgerRow.user_edited (refresh t r) = LedgerRow.user_edited r.
Proof. unfold refresh. destruct (LedgerRow.user_edited r) eqn:E; simpl; auto. Qed.

Lemma rowKey_refresh accountId k t r :
  rowKey accountId k (refresh t r) = rowKey accountId k r.
Proof.
  destruct (refresh_identity t r) as (_ & Ha & Hk & _).
  unfold rowKey, hasKey. now rewrite Ha, Hk.
Qed.

Lemma rowKey_attach accountId k k' r :
  LedgerRow.acct r = accountId ->
  rowKey accountId k' (attach k r) = importId_eqb k' k.
Proof.
  intros Ha. unfold rowKey, attach, hasKey. simpl.
  rewrite Ha, String.eqb_refl. apply importId_eqb_sym.
Qed.

Lemma fuzzyMatch_acct accountId t r b :
  fuzzy accountId t (r, b) = true -> LedgerRow.acct r = accountId.
Proof.
  unfold fuzzyMatch. rewrite !andb_true_iff. simpl.
  intros H. apply String.eqb_eq. tauto.
Qed.

Lemma claimedKey_pooled accountId k r : claimedKey accountId k (r, true) = false.
Proof. reflexivity. Qed.

Lemma claimedKey_closed accountId k r :
  claimedKey accountId k (r, false) = rowKey accountId k r.
Proof. reflexivity. Qed.

Lemma reconcileOne_claims accountId t k w res w' res' :
  step accountId t k w res = (w', res') ->
  forall k',
    count (claimedKey accountId k') w'
    = (count (claimedKey accountId k') w
       + (if importId_eqb k' k then 1 else 0))%nat.
Proof.
  intros H k'. apply reconcileOne_cases in H.
  destruct H as [l1 l2 r -> Hm -> _ | l1 l2 r -> _ Hm -> _ | _ _ -> _];
    rewrite !count_app, ?count_cons, ?claimedKey_pooled, ?claimedKey_closed.
  - rewrite rowKey_refresh, (rowKey_other accountId k k' r Hm).
    destruct (importId_eqb k' k); lia.
  - destruct (refresh_identity t r) as (_ & Ha & _).
    rewrite rowKey_attach
      by (rewrite Ha; eapply fuzzyMatch_acct; eauto).
    destruct (importId_eqb k' k); lia.
  - unfold rowKey, hasKey. simpl.
    rewrite String.eqb_refl, (importId_eqb_sym k k').
    change (count (claimedKey accountId k') []) with 0%nat.
    cbn [andb]. destruct (importId_eqb k' k); lia.
Qed.

Lemma reconcileAll_claims accountId tks :
  forall w res w' res',
    run accountId tks w res = (w', res') ->
    forall k',
      count (claimedKey accountId k') w'
      = (count (claimedKey accountId k') w + count (keyed k') tks)%nat.
Proof.
  induction tks as [|[t k] rest IH]; intros w res w' res' H k'; simpl in H.
  - injection H as <- <-. change (count (keyed k') []) with 0%nat. lia.
  - destruct (step accountId t k w res) as [w1 res1] eqn:S.
    rewrite (IH _ _ _ _ H k'), (reconcileOne_claims _ _ _ _ _ _ _ S k').
    rewrite count_cons. change (keyed k' (t, k)) with (importId_eqb k' k). lia.
Qed.


(** *** A batch whose keys are all in the pool

    When the pool holds, for every key, at least as many rows as the batch
    has transactions with that key, every transaction is settled by step 1
    and nothing is inserted. *)

Lemma reconcileOne_exact accountId t k w res w' res' :
  (0 < count (exactMatch accountId k) w)%nat ->
  step accountId t k w res = (w', res') ->
  added res' = added res
  /\ List.length w' = List.length w
  /\ forall k',
       (count (exactMatch accountId k') w'
        + (if importId_eqb k' k then 1 else 0))%nat
       = count (exactMatch accountId k') w.
Proof.
  intros Hpos H. apply reconcileOne_cases in H.
  destruct H as [l1 l2 r -> Hm -> -> | l1 l2 r _ Hn _ _ _ | Hn _ _ _].
  - split; [now destruct (LedgerRow.user_edited r)|].
    split; [rewrite !length_app; reflexivity|].
    intros k'. rewrite !count_app, !count_cons.
    change (exactMatch accountId k' (refresh t r, false)) with false.
    rewrite (exactMatch_rowKey accountId k' r), (rowKey_other accountId k k' r Hm).
    destruct (importId_eqb k' k); lia.
  - rewrite (count_zero_Forall _ _ Hn) in Hpos. lia.
  - rewrite (count_zero_Forall _ _ Hn) in Hpos. lia.
Qed.

Lemma reconcileAll_exact accountId tks :
  forall w res w' res',
    (forall k, (count (keyed k) tks <= count (exactMatch accountId k) w)%nat) ->
    run accountId tks w res = (w', res') ->
    added res' = added res /\ List.length w' = List.length w.
Proof.
  induction tks as [|[t k] rest IH]; intros w res w' res' Hk H; simpl in H.
  - injection H as <- <-. auto.
  - destruct (step accountId t k w res) as [w1 res1] eqn:S.
    assert (Hpos : (0 < count (exactMatch accountId k) w)%nat).
    { specialize (Hk k). rewrite count_cons in Hk.
      change (keyed k (t, k)) with (importId_eqb k k) in Hk.
      rewrite importId_eqb_refl in Hk. lia. }
    destruct (reconcileOne_exact _ _ _ _ _ _ _ Hpos S) as (A1 & L1 & C1).
    assert (Hk1 : forall k', (count (keyed k') rest
                               <= count (exactMatch accountId k') w1)%nat).
    { intros k'. specialize (Hk k'). specialize (C1 k').
      rewrite count_cons in Hk.
      change (keyed k' (t, k)) with (importId_eqb k' k) in Hk. lia. }
    destruct (IH _ _ _ _ Hk1 H) as (A2 & L2).
    split; congruence.
Qed.

(** Reopening the pool puts every claimed row of the account back in it. *)
Lemma reopen_claimed accountId k (w : Pool) :
  (count (claimedKey accountId k) w
   <= count (exactMatch accountId k) (openPool (closePool w)))%nat.
Proof.
  induction w as [|[r b] w IH]; [unfold count; simpl; lia|].
  unfold openPool, closePool in *. simpl. rewrite !count_cons.
  rewrite exactMatch_rowKey. destruct b.
  - rewrite claimedKey_pooled. lia.
  - rewrite claimedKey_closed. destruct (rowKey accountId k r); lia.
Qed.

Lemma openPool_unclaimed accountId k (db : Ledger) :
  count (claimedKey accountId k) (openPool db) = 0%nat.
Proof.
  apply count_zero_Forall. unfold openPool. apply Forall_forall.
  intros e He. apply in_map_iff in He. destruct He as (r & <- & _).
  reflexivity.
Qed.

Lemma count_rowKey_open accountId k (db : Ledger) :
  count (exactMatch accountId k) (openPool db) = count (rowKey accountId k) db.
Proof.
  induction db as [|r db IH]; [reflexivity|].
  unfold openPool in *. simpl. rewrite !count_cons, IH.
  now rewrite exactMatch_rowKey.
Qed.

(** After a batch the ledger holds, for every key, at least as many rows of
    the account as the batch had transactions with that key. *)
Lemma reconcile_covers accountId txs db res db' :
  reconcile dateClose payeeSimilar newId accountId txs db = (res, db') ->
  forall k,
    (count (keyed k) (assignImportIds accountId txs)
     <= count (rowKey accountId k) db')%nat.
Proof.
  unfold reconcile.
  destruct (run accountId (assignImportIds accountId txs) (openPool db)
                (mkReconcileResult [] [])) as [w r] eqn:R.
  intros H k. injection H as <- <-.
  pose proof (reconcileAll_claims _ _ _ _ _ _ R k) as C.
  rewrite openPool_unclaimed in C.
  pose proof (reopen_claimed accountId k w) as O.
  rewrite count_rowKey_open in O. lia.
Qed.

(** Importing a batch into a ledger that covers its keys adds nothing. *)
Lemma reconcile_covered accountId txs db res db' :
  (forall k, (count (keyed k) (assignImportIds accountId txs)
              <= count (rowKey accountId k) db)%nat) ->
  reconcile dateClose payeeSimilar newId accountId txs db = (res, db') ->
  added res = [] /\ List.length db' = List.length db.
Proof.
  unfold reconcile. intros Hk.
  destruct (run accountId (assignImportIds accountId txs) (openPool db)
                (mkReconcileResult [] [])) as [w r] eqn:R.
  intros H. injection H as <- <-.
  assert (Hk' : forall k, (count (keyed k) (assignImportIds accountId txs)
                           <= count (exactMatch accountId k) (openPool db))%nat).
  { intros k. rewrite count_rowKey_open. apply Hk. }
  destruct (reconcileAll_exact _ _ _ _ _ _ Hk' R) as (A & L).
  split; [exact A|].
  unfold closePool, openPool in *. rewrite length_map in *. exact L.
Qed.


(** *** A batch that matches nothing in the ledger *)







(** *** Rows before and after a batch *)

Lemma settled_rows accountId tks (db : Ledger) :
  forall kept,
    Forall2 (settledBy accountId tks) (openPool db) kept ->
    Forall2 (rowSettled dateClose payeeSimilar accountId tks) db (closePool kept).
Proof.
  induction db as [|r db IH]; intros kept H; inversion H; subst; simpl.
  - constructor.
  - constructor; [|now apply IH].
    match goal with S : settled _ _ _ _ _ _ |- _ =>
      unfold settled, claimedBy in S;
      destruct S as [-> | (t & k & I & _ & _ & [[M E] | [M E]])] end.
    + now left.
    + right. exists t, k. split; [exact I|]. left. auto.
    + right. exists t, k. split; [exact I|]. right. auto.
Qed.

Lemma reconcile_rows accountId txs db res db' :
  reconcile dateClose payeeSimilar newId accountId txs db = (res, db') ->
  exists kept inserted,
    db' = kept ++ inserted
    /\ Forall2 (rowSettled dateClose payeeSimilar accountId
                           (assignImportIds accountId txs)) db kept
    /\ added res = map LedgerRow.id inserted
    /\ Forall (fun r => exists t k w,
                 In (t, k) (assignImportIds accountId txs)
                 /\ r = fresh accountId t k w) inserted.
Proof.
  unfold reconcile.
  destruct (run accountId (assignImportIds accountId txs) (openPool db)
                (mkReconcileResult [] [])) as [w r] eqn:R.
  intros H. injection H as <- <-.
  rewrite <- (app_nil_r (openPool db)) in R.
  destruct (reconcileAll_shape _ _ _ _ _ _ _ (Forall_nil _) R)
    as (kept & new & -> & F & _ & A & P).
  exists (closePool kept), (closePool new).
  split; [unfold closePool; now rewrite map_app|].
  split; [now apply settled_rows|].
  split; [simpl in A; rewrite A; unfold closePool; now rewrite map_map|].
  unfold closePool. apply Forall_map. exact P.
Qed.

End ReconcileFacts.

(** ** The pipeline with the modelled collaborators *)

Lemma Forall2_In_r {A B : Type} (R : A -> B -> Prop) (l : list A) (l' : list B) (y : B) :
  Forall2 R l l' -> In y l' -> exists x, In x l /\ R x y.
Proof.
  induction 1 as [|a b l l' Hab _ IH]; simpl; [tauto|].
  intros [<- | Hy].
  - exists a. auto.
  - destruct (IH Hy) as (x & Hx & Rx). exists x. auto.
Qed.

Lemma keyed_In (k : ImportId) (tks : list (Trans Z * ImportId)) :
  In k (map snd tks) -> (0 < count (keyed k) tks)%nat.
Proof.
  induction tks as [|[t k0] tks IH]; simpl; [tauto|].
  rewrite count_cons. intros [-> | H].
  - change (keyed k (t, k)) with (importId_eqb k k).
    rewrite importId_eqb_refl. lia.
  - specialize (IH H). lia.
Qed.

Section PipelineFacts.

Variable parsers : Format -> string -> ParserOutput.
Variable dateClose : string -> string -> bool.
Variable payeeSimilar : string -> string -> bool.
Variable newId : Ledger -> string.
Variable JSDate : Type.
Variable d_isValid : JSDate -> bool.
Variable d_parse : string -> string -> JSDate.
Variable d_format : JSDate -> string -> string.

#[local] Abbreviation import :=
  (importFile parsers dateClose payeeSimilar newId
              JSDate d_isValid d_parse d_format).
#[local] Abbreviation normalize :=
  (normalizeTrans Amount.amountToInteger JSDate d_isValid d_parse d_format).
#[local] Abbreviation normalizeBatch :=
  (normalizeAll Amount.amountToInteger JSDate d_isValid d_parse d_format).
#[local] Abbreviation engine := (reconcile dateClose payeeSimilar newId).

(** The spread keeps every field but [amount] and [date]. *)
Lemma normalize_keeps dateFormat (x : Trans string) (y : Trans Z) :
  normalize dateFormat x = inr y ->
  payee_name y = payee_name x /\ imported_payee y = imported_payee x
  /\ notes y = notes x /\ imported_id y = imported_id x.
Proof.
  unfold normalizeTrans.
  destruct (Amount.amountToInteger (amount x)) as [e|a]; [discriminate|].
  simpl.
  match goal with |- bind ?m _ = _ -> _ => destruct m as [e|d] end;
    [discriminate|].
  simpl. intros H. injection H as <-. simpl. auto.
Qed.

Lemma normalizeBatch_some dateFormat ts out :
  normalizeBatch dateFormat (Some ts) = inr out ->
  exists txs, out = Some txs /\ mapM (normalize dateFormat) ts = inr txs.
Proof.
  unfold normalizeAll.
  destruct (mapM (normalize dateFormat) ts) as [e|txs]; [discriminate|].
  simpl. intros H. injection H as <-. eauto.
Qed.

Lemma importFile_cases accountId filepath dateFormat options db :
  ImportCase parsers dateClose payeeSimilar newId
             JSDate d_isValid d_parse d_format
             accountId filepath dateFormat options db
             (import accountId filepath dateFormat options db).
Proof.
  destruct (normalizeBatch dateFormat
              (transactions (parseFile parsers filepath options)))
    as [e|otxs] eqn:N.
  - eapply ImportRaised; [exact N|]. unfold importFile.
    now apply import_threw.
  - destruct (errors (parseFile parsers filepath options)) as [|x l] eqn:E.
    + destruct (parseFile_clean_some parsers filepath options E)
        as (f & Hf & He & Ht).
      rewrite Ht in N. destruct (normalizeBatch_some _ _ _ N) as (txs & -> & M).
      destruct (engine accountId txs db) as [res db'] eqn:R.
      eapply ImportReconciled with (f := f) (txs := txs); eauto.
      unfold importFile.
      rewrite import_clean with (txs := Some txs); auto; [|now rewrite Ht].
      unfold reconcileTransactions. now rewrite R.
    + eapply ImportGated; [exact N | congruence|]. unfold importFile.
      apply import_gated with (txs := otxs); [exact N | congruence].
Qed.

End PipelineFacts.

(* ===================================================================== *)
(** * Part III: the claims                                                *)
(* ===================================================================== *)

(** C1 (idempotence).  When an import of a file into an account has
    returned, importing the same file again into the resulting ledger returns
    as well, with the same errors, no added transaction and no new row; and
    when the first import reached reconciliation, every key of the file is
    carried by a row of the account in the resulting ledger, so that each
    incoming transaction of the second import is matched by importId. *)
Theorem reimport_adds_nothing
  (parsers : Format -> string -> ParserOutput)
  (dateClose payeeSimilar : string -> string -> bool)
  (newId : Ledger -> string)
  (JSDate : Type) (d_isValid : JSDate -> bool)
  (d_parse : string -> string -> JSDate)
  (d_format : JSDate -> string -> string)
  (accountId filepath : string) (dateFormat : option string)
  (options : option Options) (db : Ledger)
  (res1 : ImportResult) (db1 : Ledger) :
  importFile parsers dateClose payeeSimilar newId JSDate d_isValid d_parse
             d_format accountId filepath dateFormat options db
  = Returned res1 db1 ->
  exists res2 db2,
    importFile parsers dateClose payeeSimilar newId JSDate d_isValid d_parse
               d_format accountId filepath dateFormat options db1
    = Returned res2 db2
    /\ res_added res2 = []
    /\ res_errors res2 = res_errors res1
    /\ List.length db2 = List.length db1
    /\ forall txs,
         res_errors res1 = [] ->
         normalizeAll Amount.amountToInteger JSDate d_isValid d_parse d_format
           dateFormat (transactions (parseFile parsers filepath options))
         = inr (Some txs) ->
         Forall (fun k => Exists (fun r => rowKey accountId k r = true) db1)
                (keysOf accountId txs).
Proof.
  intros H1.
  pose proof (importFile_cases parsers dateClose payeeSimilar newId
                JSDate d_isValid d_parse d_format) as cases.
  destruct (cases accountId filepath dateFormat options db)
    as [e N O | otxs N E O | f txs r d' Hf He M R O]; rewrite H1 in O.
  - discriminate.
  - injection O as -> ->.
    destruct (cases accountId filepath dateFormat options db)
      as [e' N' O' | otxs' N' E' O' | f' txs' r' d'' Hf' He' M' R' O'].
    + congruence.
    + rewrite O'. do 2 eexists. split; [reflexivity|].
      repeat split; auto. simpl. intros txs Hnil. congruence.
    + exfalso. apply E. unfold parseFile. rewrite Hf'. exact He'.
  - injection O as -> ->.
    pose proof (reconcile_covers _ _ _ _ _ _ _ _ R) as Cov.
    destruct (cases accountId filepath dateFormat options d')
      as [e' N' O' | otxs' N' E' O' | f' txs' r' d'' Hf' He' M' R' O'].
    + exfalso. unfold parseFile in N'. rewrite Hf in N'. simpl in N'.
      unfold normalizeAll in N'. rewrite M in N'. discriminate.
    + exfalso. apply E'. unfold parseFile. rewrite Hf. exact He.
    + assert (f' = f) by congruence. subst f'.
      assert (txs' = txs) by congruence. subst txs'.
      destruct (reconcile_covered _ _ _ _ _ _ _ _ Cov R') as (A & L).
      rewrite O'. do 2 eexists. split; [reflexivity|]. simpl.
      repeat split; auto.
      intros txs0 _ N0. unfold parseFile in N0. rewrite Hf in N0. simpl in N0.
      unfold normalizeAll in N0. rewrite M in N0. simpl in N0.
      injection N0 as <-.
      apply Forall_forall. intros k Hk.
      apply count_pos_Exists.
      specialize (Cov k). unfold keysOf in Hk. apply keyed_In in Hk. lia.
Qed.

Lemma reimport_adds_nothing_witness :
  exists res1 db1,
    Sample.import "one" "mocks/files/big.data.QiF" (Some "yyyy-MM-dd")
                  (Some (mkOptions true)) [Sample.manualCoffee]
    = Returned res1 db1
    /\ res_added res1 = ["row-1"; "row-2"]
    /\ exists res2 db2,
         Sample.import "one" "mocks/files/big.data.QiF" (Some "yyyy-MM-dd")
                       (Some (mkOptions true)) db1
         = Returned res2 db2
         /\ res_added res2 = []
         /\ res_errors res2 = res_errors res1
         /\ List.length db2 = List.length db1
         /\ forall txs,
              res_errors res1 = [] ->
              normalizeAll Amount.amountToInteger Sample.JSDate Sample.d_isValid
                Sample.d_parse Sample.d_format (Some "yyyy-MM-dd")
                (transactions (parseFile Sample.parsers
                                 "mocks/files/big.data.QiF"
                                 (Some (mkOptions true)))) = inr (Some txs) ->
              Forall (fun k => Exists (fun r => rowKey "one" k r = true) db1)
                     (keysOf "one" txs).
Proof.
  do 2 eexists. split; [vm_compute; reflexivity|].
  split; [reflexivity|].
  apply (reimport_adds_nothing Sample.parsers Sample.dateClose
           Sample.payeeSimilar Sample.newId Sample.JSDate Sample.d_isValid
           Sample.d_parse Sample.d_format "one" "mocks/files/big.data.QiF"
           (Some "yyyy-MM-dd") (Some (mkOptions true)) [Sample.manualCoffee]).
  vm_compute. reflexivity.
Defined.

(** C2 (partial batches), as the helper implements it.  When the parser
    reports at least one malformed record next to at least one valid record,
    the helper still returns: the errors are handed back as they were
    reported, but the valid records are not reconciled; [added] is empty and
    the ledger is the one the import started from. *)
Theorem partial_batch_is_not_reconciled
  (parseFile : string -> option Options -> ParseResult)
  (amountToInteger : string -> Result Z)
  (reconcileTransactions :
     string -> option (list (Trans Z)) -> Ledger -> Outcome ReconcileResult)
  (JSDate : Type) (d_isValid : JSDate -> bool)
  (d_parse : string -> string -> JSDate)
  (d_format : JSDate -> string -> string)
  (accountId filepath : string) (dateFormat : option string)
  (options : option Options) (db : Ledger)
  (valid : list (Trans string)) (normalized : list (Trans Z)) :
  errors (parseFile filepath options) <> [] ->
  transactions (parseFile filepath options) = Some valid ->
  valid <> [] ->
  mapM (normalizeTrans amountToInteger JSDate d_isValid d_parse d_format
                       dateFormat) valid = inr normalized ->
  importFileWithRealTime parseFile amountToInteger reconcileTransactions
    JSDate d_isValid d_parse d_format accountId filepath dateFormat options db
  = Returned (mkImportResult (errors (parseFile filepath options)) []) db.
Proof.
  intros He Ht _ Hn.
  apply import_gated with (txs := Some normalized); [|exact He].
  rewrite Ht. unfold normalizeAll. rewrite Hn. reflexivity.
Qed.

Lemma partial_batch_is_not_reconciled_witness :
  errors (parseFile Sample.parsers "mocks/files/partial.qif" None) <> []
  /\ transactions (parseFile Sample.parsers "mocks/files/partial.qif" None)
     = Some [ofRaw None Sample.coffee]
  /\ [ofRaw None Sample.coffee] <> []
  /\ mapM (normalizeTrans Amount.amountToInteger Sample.JSDate Sample.d_isValid
             Sample.d_parse Sample.d_format None) [ofRaw None Sample.coffee]
     = inr [mkTrans (-450) "2017-10-11" "Corner Cafe" "Corner Cafe" None None]
  /\ Sample.import "one" "mocks/files/partial.qif" None None []
     = Returned (mkImportResult [Sample.unreadable] []) [].
Proof.
  split; [vm_compute; discriminate|].
  split; [reflexivity|].
  split; [discriminate|].
  split; [reflexivity|].
  apply (partial_batch_is_not_reconciled (parseFile Sample.parsers)
           Amount.amountToInteger
           (reconcileTransactions Sample.dateClose Sample.payeeSimilar
                                  Sample.newId)
           Sample.JSDate Sample.d_isValid Sample.d_parse Sample.d_format
           "one" "mocks/files/partial.qif" None None []
           [ofRaw None Sample.coffee]
           [mkTrans (-450) "2017-10-11" "Corner Cafe" "Corner Cafe" None None]).
  - vm_compute; discriminate.
  - reflexivity.
  - discriminate.
  - reflexivity.
Defined.

(** C2 as stated fails: the parser reports one malformed and one valid
    record; reconciling the valid record alone would add a row, yet the
    import returns the error with nothing added and the account stays
    empty. *)
Lemma partial_batch_counterexample :
  Sample.parsers QIF "mocks/files/partial.qif"
  = mkParserOutput [Sample.unreadable] [Sample.coffee]
  /\ added (fst (reconcile Sample.dateClose Sample.payeeSimilar Sample.newId "one"
                   [mkTrans (-450) "2017-10-11" "Corner Cafe" "Corner Cafe"
                            None None] []))
     = ["row-0"]
  /\ Sample.import "one" "mocks/files/partial.qif" None None []
     = Returned (mkImportResult [Sample.unreadable] []) []
  /\ ~ (exists res db',
          Sample.import "one" "mocks/files/partial.qif" None None []
          = Returned res db'
          /\ res_errors res <> [] /\ res_added res <> []).
Proof.
  split; [reflexivity|]. split; [reflexivity|]. split; [reflexivity|].
  intros (res & db' & H & _ & Ha).
  vm_compute in H. injection H as <- <-. apply Ha. reflexivity.
Qed.

Example partial_batch_leaves_account_empty :
  getTransactions "one"
    (ledgerOf (Sample.import "one" "mocks/files/partial.qif" None None []))
  = [].
Proof. reflexivity. Qed.

(** C3 (unsupported formats).  For a file whose extension is none of the
    supported ones (or which has no extension), the import returns exactly
    one error, with message "Invalid file type", and an empty [added], and
    the ledger is the one the import started from; no format parser has a
    say in the result. *)
Theorem unsupported_extension_rejected
  (parsers : Format -> string -> ParserOutput)
  (dateClose payeeSimilar : string -> string -> bool)
  (newId : Ledger -> string)
  (JSDate : Type) (d_isValid : JSDate -> bool)
  (d_parse : string -> string -> JSDate)
  (d_format : JSDate -> string -> string)
  (accountId filepath : string) (dateFormat : option string)
  (options : option Options) (db : Ledger) :
  (forall e, extension filepath = Some e ->
             formatOfExtension (toLowerCase e) = None) ->
  importFile parsers dateClose payeeSimilar newId JSDate d_isValid d_parse
             d_format accountId filepath dateFormat options db
  = Returned (mkImportResult [mkError "Invalid file type"] []) db.
Proof.
  intros H. apply detectFormat_unsupported in H.
  unfold importFile.
  pose proof (parseFile_unsupported parsers filepath options H) as P.
  rewrite import_gated with (txs := None); rewrite P; simpl;
    [reflexivity | reflexivity | discriminate].
Qed.

Lemma unsupported_extension_rejected_witness :
  (forall e, extension "foo.txt" = Some e ->
             formatOfExtension (toLowerCase e) = None)
  /\ Sample.import "one" "foo.txt" None None [Sample.manualCoffee]
     = Returned (mkImportResult [mkError "Invalid file type"] [])
                [Sample.manualCoffee].
Proof.
  assert (H : forall e, extension "foo.txt" = Some e ->
                        formatOfExtension (toLowerCase e) = None).
  { intros e E. vm_compute in E. injection E as <-. reflexivity. }
  split; [exact H|].
  exact (unsupported_extension_rejected Sample.parsers Sample.dateClose
           Sample.payeeSimilar Sample.newId Sample.JSDate Sample.d_isValid
           Sample.d_parse Sample.d_format "one" "foo.txt" None None
           [Sample.manualCoffee] H).
Defined.



(** The same file with and without note import, into an empty account. *)
Example notes_imported :
  map LedgerRow.notes
      (ledgerOf (Sample.import "one" "mocks/files/big.data.QiF"
                   (Some "yyyy-MM-dd") (Some (mkOptions true)) []))
  = [Some "Latte"; Some "Latte"; Some "October"].
Proof. reflexivity. Qed.

Example notes_dropped :
  map LedgerRow.notes
      (ledgerOf (Sample.import "one" "mocks/files/big.data.QiF"
                   (Some "yyyy-MM-dd") (Some (mkOptions false)) []))
  = [None; None; None].
Proof. reflexivity. Qed.

(** C5 (extension matching).  Whatever characters precede the last dot of
    the file name, an extension that is a supported one up to letter case
    selects the parser of that format: [parseFile] hands back what that
    parser reports, and on valid content (the parser reports no error and
    every record normalises) the import returns with zero errors. *)
Theorem extension_selects_parser
  (parsers : Format -> string -> ParserOutput)
  (dateClose payeeSimilar : string -> string -> bool)
  (newId : Ledger -> string)
  (JSDate : Type) (d_isValid : JSDate -> bool)
  (d_parse : string -> string -> JSDate)
  (d_format : JSDate -> string -> string)
  (base e : string) (f : Format) :
  hasDot e = false ->
  formatOfExtension (toLowerCase e) = Some f ->
  detectFormat (base ++ String "." e)%string = Some f
  /\ (forall options,
        parseFile parsers (base ++ String "." e)%string options
        = mkParseResult
            (parser_errors (parsers f (base ++ String "." e)%string))
            (Some (map (ofRaw options)
                       (parser_records (parsers f (base ++ String "." e)%string)))))
  /\ (forall accountId dateFormat options db txs,
        parser_errors (parsers f (base ++ String "." e)%string) = [] ->
        mapM (normalizeTrans Amount.amountToInteger JSDate d_isValid d_parse
                             d_format dateFormat)
             (map (ofRaw options)
                  (parser_records (parsers f (base ++ String "." e)%string)))
        = inr txs ->
        exists res db',
          importFile parsers dateClose payeeSimilar newId JSDate d_isValid
                     d_parse d_format accountId (base ++ String "." e)%string
                     dateFormat options db
          = Returned res db'
          /\ res_errors res = []).
Proof.
  intros He Hf.
  pose proof (detectFormat_app base e f He Hf) as D.
  split; [exact D|].
  split; [intros options; now apply parseFile_supported|].
  intros accountId dateFormat options db txs Hp Hn.
  pose proof (parseFile_supported parsers _ options f D) as P.
  unfold importFile.
  rewrite import_clean with (txs := Some txs).
  - unfold reconcileTransactions.
    destruct (reconcile dateClose payeeSimilar newId accountId txs db)
      as [res db'].
    do 2 eexists. split; reflexivity.
  - rewrite P. simpl. unfold normalizeAll. rewrite Hn. reflexivity.
  - rewrite P. exact Hp.
Qed.

Lemma extension_selects_parser_witness :
  hasDot "QFX" = false
  /\ formatOfExtension (toLowerCase "QFX") = Some QFX
  /\ detectFormat "mocks/files/best.data-ever$.QFX" = Some QFX
  /\ detectFormat "mocks/files/big.data.QiF" = Some QIF
  /\ exists res db',
       Sample.import "one" "mocks/files/best.data-ever$.QFX" None None []
       = Returned res db'
       /\ res_errors res = [].
Proof.
  split; [reflexivity|]. split; [reflexivity|].
  destruct (extension_selects_parser Sample.parsers Sample.dateClose
              Sample.payeeSimilar Sample.newId Sample.JSDate Sample.d_isValid
              Sample.d_parse Sample.d_format "mocks/files/best.data-ever$"
              "QFX" QFX eq_refl eq_refl) as (D & _ & I).
  split; [exact D|].
  split.
  - exact (proj1 (extension_selects_parser Sample.parsers Sample.dateClose
              Sample.payeeSimilar Sample.newId Sample.JSDate Sample.d_isValid
              Sample.d_parse Sample.d_format "mocks/files/big.data"
              "QiF" QIF eq_refl eq_refl)).
  - exact (I "one" None None []
             [mkTrans 210000 "2017-10-12" "Employer" "Employer" None
                      (Some "FIT-0003")] eq_refl eq_refl).
Defined.




Example amountToInteger_example : Amount.amountToInteger "-12.34" = inr (-1234).
Proof. reflexivity. Qed.

Example integerToAmount_example : Amount.integerToAmount (-1234) = "-12.34".
Proof. reflexivity. Qed.

(** C7 (dates), as the helper implements it.  For a record whose amount
    normalises: with a non-empty pattern and a date that parses, the
    normalised record carries [d.format] of the parsed date under
    ['yyyy-MM-dd']; with no pattern, or an empty one, it carries the source
    date as it is; with a non-empty pattern and a date that does not parse,
    the callback raises a [RangeError], and an import whose batch reaches
    such a record raises it too, leaving the ledger as it was. *)
Theorem date_normalization
  (parseFile : string -> option Options -> ParseResult)
  (amountToInteger : string -> Result Z)
  (reconcileTransactions :
     string -> option (list (Trans Z)) -> Ledger -> Outcome ReconcileResult)
  (JSDate : Type) (d_isValid : JSDate -> bool)
  (d_parse : string -> string -> JSDate)
  (d_format : JSDate -> string -> string)
  (trans : Trans string) (a : Z) :
  amountToInteger (amount trans) = inr a ->
  (forall fmt,
      truthy fmt = true ->
      d_isValid (d_parse (date trans) fmt) = true ->
      exists t',
        normalizeTrans amountToInteger JSDate d_isValid d_parse d_format
                       (Some fmt) trans = inr t'
        /\ date t' = d_format (d_parse (date trans) fmt) "yyyy-MM-dd")
  /\ (forall dateFormat,
        dateFormat = None \/ dateFormat = Some "" ->
        exists t',
          normalizeTrans amountToInteger JSDate d_isValid d_parse d_format
                         dateFormat trans = inr t'
          /\ date t' = date trans)
  /\ (forall fmt,
        truthy fmt = true ->
        d_isValid (d_parse (date trans) fmt) = false ->
        normalizeTrans amountToInteger JSDate d_isValid d_parse d_format
                       (Some fmt) trans
        = inl (RangeError "Invalid time value")
        /\ forall accountId filepath options db before before' after,
             transactions (parseFile filepath options)
             = Some (before ++ trans :: after)%list ->
             mapM (normalizeTrans amountToInteger JSDate d_isValid d_parse
                                  d_format (Some fmt)) before = inr before' ->
             importFileWithRealTime parseFile amountToInteger
               reconcileTransactions JSDate d_isValid d_parse d_format
               accountId filepath (Some fmt) options db
             = Threw (RangeError "Invalid time value") db).
Proof.
  intros Ha. split; [|split].
  - intros fmt Hf Hv. eexists. split.
    + apply normalize_date_parsed; eauto.
    + reflexivity.
  - intros dateFormat Hd. eexists. split.
    + apply normalize_date_kept; eauto.
    + reflexivity.
  - intros fmt Hf Hv.
    pose proof (normalize_date_invalid amountToInteger JSDate d_isValid d_parse
                  d_format trans a fmt Ha Hf Hv) as N.
    split; [exact N|].
    intros accountId filepath options db before before' after Ht Hb.
    apply import_threw. rewrite Ht. unfold normalizeAll.
    rewrite (mapM_stops _ _ _ _ _ _ Hb N). reflexivity.
Qed.

Lemma date_normalization_witness :
  Amount.amountToInteger (amount (ofRaw None Sample.coffee)) = inr (-450)
  /\ (exists t',
        normalizeTrans Amount.amountToInteger Sample.JSDate Sample.d_isValid
          Sample.d_parse Sample.d_format (Some "yyyy-MM-dd")
          (ofRaw None Sample.coffee) = inr t'
        /\ date t' = "2017-10-11")
  /\ (exists t',
        normalizeTrans Amount.amountToInteger Sample.JSDate Sample.d_isValid
          Sample.d_parse Sample.d_format None
          (ofRaw None Sample.coffee) = inr t'
        /\ date t' = "2017-10-11").
Proof.
  split; [reflexivity|].
  destruct (date_normalization (parseFile Sample.parsers)
              Amount.amountToInteger
              (reconcileTransactions Sample.dateClose Sample.payeeSimilar
                                     Sample.newId)
              Sample.JSDate Sample.d_isValid Sample.d_parse Sample.d_format
              (ofRaw None Sample.coffee) (-450) eq_refl) as (P & K & _).
  split.
  - exact (P "yyyy-MM-dd" eq_refl eq_refl).
  - exact (K None (or_introl eq_refl)).
Defined.

(** C7 as stated fails in its last sentence: the parser reports no error and
    two records, the second with a date that does not parse; the import
    raises instead of reporting a per-record error, and the valid record is
    not imported either. *)
Lemma date_failure_is_fatal :
  Sample.parsers QIF "mocks/files/undated.qif"
  = mkParserOutput [] [Sample.coffee; Sample.undated]
  /\ Sample.d_isValid (Sample.d_parse "not a date" "yyyy-MM-dd") = false
  /\ Sample.import "one" "mocks/files/undated.qif" (Some "yyyy-MM-dd") None []
     = Threw (RangeError "Invalid time value") []
  /\ ~ (exists res db',
          Sample.import "one" "mocks/files/undated.qif" (Some "yyyy-MM-dd")
                        None []
          = Returned res db').
Proof.
  split; [reflexivity|]. split; [reflexivity|]. split; [reflexivity|].
  intros (res & db' & H). vm_compute in H. discriminate.
Qed.










(** A hand-entered, user-edited row is fuzzy-matched by the first of two like
    records: it receives the key and keeps its payee and notes. *)
Example user_edited_row_kept :
  map (fun r => (LedgerRow.id r, LedgerRow.notes r, LedgerRow.imported_id r))
      (ledgerOf (Sample.import "one" "mocks/files/big.data.QiF"
                   (Some "yyyy-MM-dd") (Some (mkOptions true))
                   [Sample.manualCoffee]))
  = [("row-manual", Some "my note",
      Some (Fingerprint "one" "2017-10-11" (-450) "Corner Cafe" 0));
     ("row-1", Some "Latte",
      Some (Fingerprint "one" "2017-10-11" (-450) "Corner Cafe" 1));
     ("row-2", Some "October", Some (NativeId "one" "FIT-0002"))].
Proof. reflexivity. Qed.

(** C10 (the error gate).  When parsing returns a non-empty error list, the
    result of the helper does not depend on [reconcileTransactions], which is
    never called, and the ledger is left as it was; the helper returns that
    error list with an empty [added] whenever the normalisation of the parsed
    records, which runs before the gate, completes, and raises what the
    normalisation raised otherwise. *)
Theorem parse_errors_skip_reconciliation
  (parseFile : string -> option Options -> ParseResult)
  (amountToInteger : string -> Result Z)
  (reconcileTransactions :
     string -> option (list (Trans Z)) -> Ledger -> Outcome ReconcileResult)
  (JSDate : Type) (d_isValid : JSDate -> bool)
  (d_parse : string -> string -> JSDate)
  (d_format : JSDate -> string -> string)
  (accountId filepath : string) (dateFormat : option string)
  (options : option Options) (db : Ledger) :
  errors (parseFile filepath options) <> [] ->
  ledgerOf (importFileWithRealTime parseFile amountToInteger
              reconcileTransactions JSDate d_isValid d_parse d_format
              accountId filepath dateFormat options db) = db
  /\ (forall otherReconcile,
        importFileWithRealTime parseFile amountToInteger otherReconcile
          JSDate d_isValid d_parse d_format
          accountId filepath dateFormat options db
        = importFileWithRealTime parseFile amountToInteger
            reconcileTransactions JSDate d_isValid d_parse d_format
            accountId filepath dateFormat options db)
  /\ importFileWithRealTime parseFile amountToInteger
       reconcileTransactions JSDate d_isValid d_parse d_format
       accountId filepath dateFormat options db
     = match normalizeAll amountToInteger JSDate d_isValid d_parse d_format
               dateFormat (transactions (parseFile filepath options)) with
       | inr _ =>
           Returned (mkImportResult (errors (parseFile filepath options)) []) db
       | inl e => Threw e db
       end.
Proof.
  intros He. split; [now apply import_errors_frame|].
  split; [intros g; now apply import_errors_any_reconcile|].
  destruct (normalizeAll amountToInteger JSDate d_isValid d_parse d_format
              dateFormat (transactions (parseFile filepath options)))
    as [e|txs] eqn:N.
  - now apply import_threw.
  - now apply import_gated with (txs := txs).
Qed.

Lemma parse_errors_skip_reconciliation_witness :
  errors (parseFile Sample.parsers "mocks/files/partial.qif" None) <> []
  /\ Sample.import "one" "mocks/files/partial.qif" None None
                   [Sample.manualCoffee]
     = Returned (mkImportResult [Sample.unreadable] []) [Sample.manualCoffee].
Proof.
  split; [vm_compute; discriminate|].
  destruct (parse_errors_skip_reconciliation (parseFile Sample.parsers)
              Amount.amountToInteger
              (reconcileTransactions Sample.dateClose Sample.payeeSimilar
                                     Sample.newId)
              Sample.JSDate Sample.d_isValid Sample.d_parse Sample.d_format
              "one" "mocks/files/partial.qif" None None [Sample.manualCoffee])
    as (_ & _ & H).
  - vm_compute; discriminate.
  - exact H.
Defined.

(** C10 as stated fails where the normalisation raises: the parser reports an
    error together with a record whose date does not parse; the helper
    raises before it reaches the gate and returns no error list. *)
Lemma parse_errors_may_raise :
  errors (parseFile Sample.parsers "mocks/files/broken.qif" None)
  = [Sample.unreadable]
  /\ Sample.import "one" "mocks/files/broken.qif" (Some "yyyy-MM-dd") None []
     = Threw (RangeError "Invalid time value") []
  /\ Sample.import "one" "mocks/files/broken.qif" (Some "yyyy-MM-dd") None []
     <> Returned (mkImportResult [Sample.unreadable] []) [].
Proof.
  split; [reflexivity|]. split; [reflexivity|].
  vm_compute. discriminate.
Qed.

(* ===================================================================== *)
(** * Part IV: further properties of the test helper                      *)
(* ===================================================================== *)

Lemma mapM_ext {A B : Type} (f g : A -> Result B) (l : list A) :
  (forall x, f x = g x) -> mapM f l = mapM g l.
Proof.
  intros H. induction l as [|x l IH]; simpl; [reflexivity|].
  now rewrite H, IH.
Qed.

Lemma mapM_of_Forall2 {A B : Type} (f : A -> Result B) (l : list A) (l' : list B) :
  Forall2 (fun x y => f x = inr y) l l' -> mapM f l = inr l'.
Proof.
  induction 1 as [|x y l l' Hxy _ IH]; simpl; [reflexivity|].
  rewrite Hxy. simpl. rewrite IH. reflexivity.
Qed.

(** A map that raises has a first element on which the callback raises. *)
Lemma mapM_raises {A B : Type} (f : A -> Result B) (l : list A) (e : Exn) :
  mapM f l = inl e ->
  exists before x after before',
    l = before ++ x :: after
    /\ mapM f before = inr before'
    /\ f x = inl e.
Proof.
  induction l as [|a l IH]; simpl; [discriminate|].
  destruct (f a) as [e0|y] eqn:Fa; simpl.
  - intros H. injection H as <-. exists [], a, l, []. auto.
  - destruct (mapM f l) as [e1|ys] eqn:M; simpl; [|discriminate].
    intros H. injection H as <-.
    destruct (IH eq_refl) as (before & x & after & before' & -> & Hb & Hx).
    exists (a :: before), x, after, (y :: before').
    split; [reflexivity|]. split; [|exact Hx].
    simpl. rewrite Fa. simpl. rewrite Hb. reflexivity.
Qed.

Lemma Forall_filter {A : Type} (P : A -> Prop) (f : A -> bool) (l : list A) :
  Forall P l -> Forall P (filter f l).
Proof.
  induction 1 as [|x l Hx _ IH]; simpl; [constructor|].
  destruct (f x); [constructor|]; auto.
Qed.

Section HelperProperties.

Variable parseFile : string -> option Options -> ParseResult.
Variable amountToInteger : string -> Result Z.
Variable reconcileTransactions :
  string -> option (list (Trans Z)) -> Ledger -> Outcome ReconcileResult.
Variable JSDate : Type.
Variable d_isValid : JSDate -> bool.
Variable d_parse : string -> string -> JSDate.
Variable d_format : JSDate -> string -> string.

#[local] Abbreviation normalize :=
  (normalizeTrans amountToInteger JSDate d_isValid d_parse d_format).
#[local] Abbreviation normalizeBatch :=
  (normalizeAll amountToInteger JSDate d_isValid d_parse d_format).
#[local] Abbreviation helper :=
  (importFileWithRealTime parseFile amountToInteger reconcileTransactions
                          JSDate d_isValid d_parse d_format).
#[local] Abbreviation builtFrom :=
  (normalizedFrom amountToInteger JSDate d_isValid d_parse d_format).

Lemma normalize_iff dateFormat (x : Trans string) (y : Trans Z) :
  normalize dateFormat x = inr y <-> builtFrom dateFormat x y.
Proof.
  unfold normalizeTrans, normalizedFrom, dateAccepted, normalizedDate,
    patternOf, format.
  destruct (amountToInteger (amount x)) as [e|a]; simpl.
  - split; [discriminate | intros (H & _); discriminate].
  - destruct dateFormat as [fmt|]; [destruct (truthy fmt)|].
    + destruct (d_isValid (d_parse (date x) fmt)); simpl.
      * split.
        -- intros H. injection H as <-. simpl. repeat split; reflexivity.
        -- intros (Ha & _ & Hd & Hp & Hi & Hn & Hk). destruct y; simpl in *.
           injection Ha as <-. subst. reflexivity.
      * split; [discriminate | intros (_ & H & _); discriminate].
    + simpl. split.
      * intros H. injection H as <-. simpl. repeat split; reflexivity.
      * intros (Ha & _ & Hd & Hp & Hi & Hn & Hk). destruct y; simpl in *.
        injection Ha as <-. subst. reflexivity.
    + simpl. split.
      * intros H. injection H as <-. simpl. repeat split; reflexivity.
      * intros (Ha & _ & Hd & Hp & Hi & Hn & Hk). destruct y; simpl in *.
        injection Ha as <-. subst. reflexivity.
Qed.

Lemma normalizeBatch_iff dateFormat ts txs :
  normalizeBatch dateFormat (Some ts) = inr (Some txs)
  <-> Forall2 (builtFrom dateFormat) ts txs.
Proof.
  unfold normalizeAll. split.
  - destruct (mapM (normalize dateFormat) ts) as [e|l] eqn:M; simpl;
      [discriminate|].
    intros H. injection H as <-.
    eapply Forall2_impl; [|exact (mapM_Forall2 _ _ _ M)].
    intros a b. apply normalize_iff.
  - intros F. rewrite (mapM_of_Forall2 (normalize dateFormat) ts txs);
      [reflexivity|].
    eapply Forall2_impl; [|exact F]. intros a b. apply normalize_iff.
Qed.

(** X1.  Whenever the helper returns, the errors of its result are those
    [parseFile] reported, and the result never carries errors and added
    identities together. *)
Theorem errors_pass_through
  (accountId filepath : string) (dateFormat : option string)
  (options : option Options) (db : Ledger)
  (res : ImportResult) (db' : Ledger) :
  helper accountId filepath dateFormat options db = Returned res db' ->
  res_errors res = errors (parseFile filepath options)
  /\ (res_errors res = [] \/ res_added res = []).
Proof.
  unfold importFileWithRealTime.
  destruct (normalizeBatch dateFormat (transactions (parseFile filepath options)))
    as [e|txs]; [discriminate|].
  destruct (errors (parseFile filepath options)) as [|x l] eqn:E; simpl.
  - destruct (reconcileTransactions accountId txs db) as [r d|e d];
      [|discriminate].
    intros H. injection H as <- <-. simpl. auto.
  - intros H. injection H as <- <-. simpl. auto.
Qed.

(** X2.  An empty [dateFormat] is falsy: the helper behaves with it exactly
    as it does with no [dateFormat] at all. *)
Theorem empty_dateFormat_is_none
  (accountId filepath : string) (options : option Options) (db : Ledger) :
  helper accountId filepath (Some "") options db
  = helper accountId filepath None options db.
Proof.
  unfold importFileWithRealTime.
  replace (normalizeBatch (Some "") (transactions (parseFile filepath options)))
    with (normalizeBatch None (transactions (parseFile filepath options)));
    [reflexivity|].
  unfold normalizeAll.
  destruct (transactions (parseFile filepath options)) as [ts|]; [|reflexivity].
  now rewrite (mapM_ext (normalize None) (normalize (Some "")) ts).
Qed.

(** X3.  On a clean parse the helper returns exactly when the map completes
    and [reconcileTransactions] returns; what [reconcileTransactions] is
    given then has one object per parsed record, in the same order, each
    differing from its record in [amount] and [date] only, and the result is
    the [added] list of [reconcileTransactions] with the ledger it left. *)
Theorem clean_import_reconciles_normalized
  (accountId filepath : string) (dateFormat : option string)
  (options : option Options) (db : Ledger) (ts : list (Trans string))
  (res : ImportResult) (db' : Ledger) :
  errors (parseFile filepath options) = [] ->
  transactions (parseFile filepath options) = Some ts ->
  (helper accountId filepath dateFormat options db = Returned res db'
   <-> exists txs r,
         Forall2 (builtFrom dateFormat) ts txs
         /\ reconcileTransactions accountId (Some txs) db = Returned r db'
         /\ res = mkImportResult [] (added r)).
Proof.
  intros He Ht. unfold importFileWithRealTime. rewrite Ht, He.
  change (0 <? List.length (@nil ImportError))%nat with false. cbv iota.
  split.
  - destruct (normalizeBatch dateFormat (Some ts)) as [e|otxs] eqn:N;
      [discriminate|].
    assert (exists txs, otxs = Some txs) as [txs ->].
    { unfold normalizeAll in N.
      destruct (mapM (normalize dateFormat) ts); [discriminate|].
      simpl in N. injection N as <-. eauto. }
    destruct (reconcileTransactions accountId (Some txs) db) as [r d|e d] eqn:R;
      [|discriminate].
    intros H. injection H as <- <-. exists txs, r.
    split; [now apply normalizeBatch_iff | auto].
  - intros (txs & r & F & R & ->).
    apply normalizeBatch_iff in F. rewrite F, R. reflexivity.
Qed.

(** X4.  The map raises exactly when some record fails to normalise, and
    what it raises is the exception of the first such record in file order;
    the helper then raises that exception and leaves the ledger alone,
    whether or not [parseFile] reported errors. *)
Theorem first_failure_decides
  (accountId filepath : string) (dateFormat : option string)
  (options : option Options) (db : Ledger) (ts : list (Trans string))
  (e : Exn) :
  transactions (parseFile filepath options) = Some ts ->
  ((exists before x after before',
       ts = before ++ x :: after
       /\ mapM (normalize dateFormat) before = inr before'
       /\ normalize dateFormat x = inl e)
   <-> normalizeBatch dateFormat (Some ts) = inl e)
  /\ (normalizeBatch dateFormat (Some ts) = inl e ->
      helper accountId filepath dateFormat options db = Threw e db).
Proof.
  intros Ht. split; [split|].
  - intros (before & x & after & before' & -> & Hb & Hx).
    unfold normalizeAll. now rewrite (mapM_stops _ _ _ _ _ _ Hb Hx).
  - unfold normalizeAll.
    destruct (mapM (normalize dateFormat) ts) as [e0|l] eqn:M; simpl;
      [|discriminate].
    intros H. injection H as <-. now apply mapM_raises.
  - intros N. unfold importFileWithRealTime. rewrite Ht, N. reflexivity.
Qed.

(** X5.  The helper writes to the ledger through [reconcileTransactions]
    only: either the ledger is the one it started from, or parsing reported
    no error, the map completed, and the ledger is the one
    [reconcileTransactions] left for the normalised transactions. *)
Theorem ledger_changes_through_reconcile_only
  (accountId filepath : string) (dateFormat : option string)
  (options : option Options) (db : Ledger) :
  ledgerOf (helper accountId filepath dateFormat options db) = db
  \/ (errors (parseFile filepath options) = []
      /\ exists txs,
           normalizeBatch dateFormat (transactions (parseFile filepath options))
           = inr txs
           /\ ledgerOf (helper accountId filepath dateFormat options db)
              = ledgerOf (reconcileTransactions accountId txs db)).
Proof.
  unfold importFileWithRealTime.
  destruct (normalizeBatch dateFormat (transactions (parseFile filepath options)))
    as [e|txs]; [now left|].
  destruct (errors (parseFile filepath options)) as [|x l]; simpl; [|now left].
  right. split; [reflexivity|]. exists txs. split; [reflexivity|].
  now destruct (reconcileTransactions accountId txs db).
Qed.

(** X6.  When [parseFile] hands over no transactions, be it an absent field
    or an empty array, [dateFormat] has no influence on what the helper
    does. *)
Theorem dateFormat_idle_without_transactions
  (accountId filepath : string) (dateFormat dateFormat' : option string)
  (options : option Options) (db : Ledger) :
  transactions (parseFile filepath options) = None
  \/ transactions (parseFile filepath options) = Some [] ->
  helper accountId filepath dateFormat options db
  = helper accountId filepath dateFormat' options db.
Proof.
  unfold importFileWithRealTime. intros [-> | ->]; reflexivity.
Qed.

(** X7.  Without a truthy [dateFormat] date-fns is never consulted: if
    [amountToInteger] accepts the amount of every parsed record the map
    completes, the dates reach [reconcileTransactions] as the parser wrote
    them, and the helper raises only if [reconcileTransactions] does. *)
Theorem no_pattern_keeps_dates
  (accountId filepath : string) (dateFormat : option string)
  (options : option Options) (db : Ledger) (ts : list (Trans string)) :
  patternOf dateFormat = None ->
  transactions (parseFile filepath options) = Some ts ->
  Forall (fun t => exists a, amountToInteger (amount t) = inr a) ts ->
  exists txs,
    normalizeBatch dateFormat (Some ts) = inr (Some txs)
    /\ map date txs = map date ts
    /\ helper accountId filepath dateFormat options db
       = if (0 <? List.length (errors (parseFile filepath options)))%nat
         then Returned (mkImportResult (errors (parseFile filepath options)) [])
                       db
         else match reconcileTransactions accountId (Some txs) db with
              | Returned r db' =>
                  Returned (mkImportResult (errors (parseFile filepath options))
                                           (added r)) db'
              | Threw e db' => Threw e db'
              end.
Proof.
  intros Hp Ht Ha.
  assert (exists txs, Forall2 (builtFrom dateFormat) ts txs
                      /\ map date txs = map date ts) as (txs & F & D).
  { clear Ht. induction Ha as [|t ts (a & Hamt) _ (txs & F & D)].
    - exists []. split; [constructor | reflexivity].
    - exists (mkTrans a (date t) (payee_name t) (imported_payee t) (notes t)
                      (imported_id t) :: txs).
      split; [|simpl; now rewrite D].
      constructor; [|exact F].
      unfold normalizedFrom, dateAccepted, normalizedDate. rewrite Hp. simpl.
      repeat split; auto. }
  exists txs. apply normalizeBatch_iff in F.
  split; [exact F|]. split; [exact D|].
  unfold importFileWithRealTime. rewrite Ht, F. reflexivity.
Qed.


End HelperProperties.

Lemma errors_pass_through_witness :
  exists res db',
    Sample.import "one" "mocks/files/partial.qif" None None [Sample.manualCoffee]
    = Returned res db'
    /\ res_errors res
       = errors (parseFile Sample.parsers "mocks/files/partial.qif" None)
    /\ (res_errors res = [] \/ res_added res = []).
Proof.
  do 2 eexists. split; [vm_compute; reflexivity|].
  eapply (errors_pass_through (parseFile Sample.parsers) Amount.amountToInteger
           (reconcileTransactions Sample.dateClose Sample.payeeSimilar
                                  Sample.newId)
           Sample.JSDate Sample.d_isValid Sample.d_parse Sample.d_format
           "one" "mocks/files/partial.qif" None None [Sample.manualCoffee]).
  vm_compute. reflexivity.
Defined.

Lemma clean_import_reconciles_normalized_witness :
  errors (parseFile Sample.parsers "mocks/files/best.data-ever$.QFX" None) = []
  /\ transactions (parseFile Sample.parsers "mocks/files/best.data-ever$.QFX"
                             None)
     = Some [ofRaw None Sample.salary]
  /\ exists txs r,
       Forall2 (normalizedFrom Amount.amountToInteger Sample.JSDate
                  Sample.d_isValid Sample.d_parse Sample.d_format
                  (Some "yyyy-MM-dd"))
               [ofRaw None Sample.salary] txs
       /\ reconcileTransactions Sample.dateClose Sample.payeeSimilar
            Sample.newId "one" (Some txs) []
          = Returned r
              [LedgerRow.mk "row-0" "one" 210000 "2017-10-12" "Employer" "Employer"
                      None (Some (NativeId "one" "FIT-0003")) false]
       /\ mkImportResult [] ["row-0"] = mkImportResult [] (added r).
Proof.
  split; [reflexivity|]. split; [reflexivity|].
  apply (clean_import_reconciles_normalized (parseFile Sample.parsers)
           Amount.amountToInteger
           (reconcileTransactions Sample.dateClose Sample.payeeSimilar
                                  Sample.newId)
           Sample.JSDate Sample.d_isValid Sample.d_parse Sample.d_format
           "one" "mocks/files/best.data-ever$.QFX" (Some "yyyy-MM-dd") None []
           [ofRaw None Sample.salary] (mkImportResult [] ["row-0"])
           [LedgerRow.mk "row-0" "one" 210000 "2017-10-12" "Employer" "Employer"
                   None (Some (NativeId "one" "FIT-0003")) false]
           eq_refl eq_refl).
  reflexivity.
Defined.

Lemma first_failure_decides_witness :
  transactions (parseFile Sample.parsers "mocks/files/undated.qif" None)
  = Some [ofRaw None Sample.coffee; ofRaw None Sample.undated]
  /\ normalizeAll Amount.amountToInteger Sample.JSDate Sample.d_isValid
       Sample.d_parse Sample.d_format (Some "yyyy-MM-dd")
       (Some [ofRaw None Sample.coffee; ofRaw None Sample.undated])
     = inl (RangeError "Invalid time value")
  /\ Sample.import "one" "mocks/files/undated.qif" (Some "yyyy-MM-dd") None
                   [Sample.manualCoffee]
     = Threw (RangeError "Invalid time value") [Sample.manualCoffee].
Proof.
  split; [reflexivity|].
  destruct (first_failure_decides (parseFile Sample.parsers)
              Amount.amountToInteger
              (reconcileTransactions Sample.dateClose Sample.payeeSimilar
                                     Sample.newId)
              Sample.JSDate Sample.d_isValid Sample.d_parse Sample.d_format
              "one" "mocks/files/undated.qif" (Some "yyyy-MM-dd") None
              [Sample.manualCoffee]
              [ofRaw None Sample.coffee; ofRaw None Sample.undated]
              (RangeError "Invalid time value") eq_refl) as ((To & _) & Raise).
  assert (N : normalizeAll Amount.amountToInteger Sample.JSDate Sample.d_isValid
                Sample.d_parse Sample.d_format (Some "yyyy-MM-dd")
                (Some [ofRaw None Sample.coffee; ofRaw None Sample.undated])
              = inl (RangeError "Invalid time value")).
  { apply To.
    exists [ofRaw None Sample.coffee], (ofRaw None Sample.undated), [].
    eexists. split; [reflexivity|]. split; reflexivity. }
  split; [exact N | exact (Raise N)].
Defined.

Lemma dateFormat_idle_without_transactions_witness :
  (transactions (parseFile Sample.parsers "foo.txt" None) = None
   \/ transactions (parseFile Sample.parsers "foo.txt" None) = Some [])
  /\ Sample.import "one" "foo.txt" (Some "yyyy-MM-dd") None []
     = Sample.import "one" "foo.txt" None None [].
Proof.
  split; [left; reflexivity|].
  apply (dateFormat_idle_without_transactions (parseFile Sample.parsers)
           Amount.amountToInteger
           (reconcileTransactions Sample.dateClose Sample.payeeSimilar
                                  Sample.newId)
           Sample.JSDate Sample.d_isValid Sample.d_parse Sample.d_format
           "one" "foo.txt" (Some "yyyy-MM-dd") None None []).
  left. reflexivity.
Defined.

Lemma no_pattern_keeps_dates_witness :
  patternOf (Some "") = None
  /\ transactions (parseFile Sample.parsers "mocks/files/undated.qif" None)
     = Some [ofRaw None Sample.coffee; ofRaw None Sample.undated]
  /\ Forall (fun t => exists a, Amount.amountToInteger (amount t) = inr a)
            [ofRaw None Sample.coffee; ofRaw None Sample.undated]
  /\ exists txs,
       normalizeAll Amount.amountToInteger Sample.JSDate Sample.d_isValid
         Sample.d_parse Sample.d_format (Some "")
         (Some [ofRaw None Sample.coffee; ofRaw None Sample.undated])
       = inr (Some txs)
       /\ map date txs = ["2017-10-11"; "not a date"].
Proof.
  assert (A : Forall (fun t => exists a, Amount.amountToInteger (amount t) = inr a)
                     [ofRaw None Sample.coffee; ofRaw None Sample.undated]).
  { constructor; [exists (-450); reflexivity|].
    constructor; [exists (-100); reflexivity|]. constructor. }
  split; [reflexivity|]. split; [reflexivity|]. split; [exact A|].
  destruct (no_pattern_keeps_dates (parseFile Sample.parsers)
              Amount.amountToInteger
              (reconcileTransactions Sample.dateClose Sample.payeeSimilar
                                     Sample.newId)
              Sample.JSDate Sample.d_isValid Sample.d_parse Sample.d_format
              "one" "mocks/files/undated.qif" (Some "") None []
              [ofRaw None Sample.coffee; ofRaw None Sample.undated]
              eq_refl eq_refl A) as (txs & N & D & _).
  exists txs. split; [exact N | exact D].
Defined.

(** ** The database statements *)

Lemma deleted_rows_elsewhere accountId (db : Ledger) :
  Forall (fun r => LedgerRow.acct r <> accountId) (deleteTransactions accountId db).
Proof.
  unfold deleteTransactions. apply Forall_forall. intros r H.
  apply filter_In in H. destruct H as [_ H].
  apply negb_true_iff in H. now apply String.eqb_neq.
Qed.

Lemma getTransactions_elsewhere accountId (l : Ledger) :
  Forall (fun r => LedgerRow.acct r <> accountId) l -> getTransactions accountId l = [].
Proof.
  induction 1 as [|r l Hr _ IH]; [reflexivity|].
  unfold getTransactions in *. simpl.
  apply String.eqb_neq in Hr. now rewrite Hr.
Qed.

Lemma getTransactions_split accountId (a b : Ledger) :
  getTransactions accountId (a ++ b)
  = getTransactions accountId a ++ getTransactions accountId b.
Proof. unfold getTransactions. apply filter_app. Qed.

(** X8.  The [DELETE] statement removes exactly the rows the [SELECT] of
    [getTransactions] returns for the account: afterwards the query for that
    account is empty, the query for any other account answers as before, and
    the rows deleted and the rows left add up to the ledger. *)
Theorem delete_removes_queried_rows (accountId other : string) (db : Ledger) :
  other <> accountId ->
  getTransactions accountId (deleteTransactions accountId db) = []
  /\ getTransactions other (deleteTransactions accountId db)
     = getTransactions other db
  /\ (List.length (getTransactions accountId db)
      + List.length (deleteTransactions accountId db))%nat
     = List.length db.
Proof.
  intros Hne. split; [|split].
  - apply getTransactions_elsewhere, deleted_rows_elsewhere.
  - unfold getTransactions, deleteTransactions.
    induction db as [|r db IH]; [reflexivity|]. simpl.
    destruct (LedgerRow.acct r =? accountId)%string eqn:E; simpl.
    + apply String.eqb_eq in E.
      assert (N : (LedgerRow.acct r =? other)%string = false).
      { apply String.eqb_neq. congruence. }
      rewrite N. exact IH.
    + destruct (LedgerRow.acct r =? other)%string; [f_equal|]; exact IH.
  - unfold getTransactions, deleteTransactions.
    induction db as [|r db IH]; [reflexivity|]. simpl.
    destruct (LedgerRow.acct r =? accountId)%string; simpl; lia.
Qed.

Lemma delete_removes_queried_rows_witness :
  "two" <> "one"
  /\ getTransactions "one" (deleteTransactions "one" [Sample.manualCoffee]) = []
  /\ getTransactions "two" (deleteTransactions "one" [Sample.manualCoffee])
     = getTransactions "two" [Sample.manualCoffee]
  /\ (List.length (getTransactions "one" [Sample.manualCoffee])
      + List.length (deleteTransactions "one" [Sample.manualCoffee]))%nat
     = List.length [Sample.manualCoffee].
Proof.
  assert (H : "two" <> "one") by discriminate.
  split; [exact H|].
  exact (delete_removes_queried_rows "one" "two" [Sample.manualCoffee] H).
Defined.

(** ** The notes test (lines 130-159) *)

Lemma exactMatch_acct accountId k r b :
  exactMatch accountId k (r, b) = true -> LedgerRow.acct r = accountId.
Proof.
  unfold exactMatch. rewrite !andb_true_iff. simpl.
  intros H. apply String.eqb_eq. tauto.
Qed.

(** A batch leaves the rows of other accounts as they are. *)
Lemma rowSettled_elsewhere dateClose payeeSimilar accountId tks (l kept : Ledger) :
  Forall (fun r => LedgerRow.acct r <> accountId) l ->
  Forall2 (rowSettled dateClose payeeSimilar accountId tks) l kept ->
  kept = l.
Proof.
  intros Hl F. induction F as [|r r' l kept S _ IH]; [reflexivity|].
  inversion Hl; subst. f_equal; [|now apply IH].
  destruct S as [-> | (t & k & _ & [[M _] | [M _]])]; [reflexivity| |].
  - apply exactMatch_acct in M. congruence.
  - apply fuzzyMatch_acct in M. congruence.
Qed.

(** X9.  The assertion of the notes test for every file, format parser and
    ledger: once the transactions of the account are deleted, an import with
    note import disabled leaves the account with rows without notes only,
    whatever memos the file carries. *)
Theorem notes_test_holds
  (parsers : Format -> string -> ParserOutput)
  (dateClose payeeSimilar : string -> string -> bool)
  (newId : Ledger -> string)
  (JSDate : Type) (d_isValid : JSDate -> bool)
  (d_parse : string -> string -> JSDate)
  (d_format : JSDate -> string -> string)
  (accountId filepath : string) (dateFormat : option string)
  (options : option Options) (db : Ledger) :
  notesEnabled options = false ->
  Forall (fun t => LedgerRow.notes t = None)
    (getTransactions accountId
       (ledgerOf
          (importFile parsers dateClose payeeSimilar newId JSDate d_isValid
             d_parse d_format accountId filepath dateFormat options
             (deleteTransactions accountId db)))).
Proof.
  intros Off.
  pose proof (deleted_rows_elsewhere accountId db) as Gone.
  destruct (importFile_cases parsers dateClose payeeSimilar newId JSDate
              d_isValid d_parse d_format accountId filepath dateFormat
              options (deleteTransactions accountId db))
    as [e N O | otxs N E O | f txs r d' Hf He M R O]; rewrite O; simpl.
  - rewrite (getTransactions_elsewhere _ _ Gone). constructor.
  - rewrite (getTransactions_elsewhere _ _ Gone). constructor.
  - destruct (reconcile_rows _ _ _ _ _ _ _ _ R)
      as (kept & inserted & -> & F & _ & P).
    rewrite (rowSettled_elsewhere _ _ _ _ _ _ Gone F).
    rewrite getTransactions_split, (getTransactions_elsewhere _ _ Gone).
    simpl. apply Forall_filter.
    eapply Forall_impl; [|exact P].
    intros row (t & k & w & I & ->). simpl.
    assert (It : In t txs).
    { rewrite <- (assignFrom_fst accountId [] txs).
      apply in_map_iff. exists (t, k). auto. }
    destruct (Forall2_In_r _ _ _ _ (mapM_Forall2 _ _ _ M) It) as (x & Hx & Nx).
    apply in_map_iff in Hx. destruct Hx as (raw & <- & _).
    apply normalize_keeps in Nx. destruct Nx as (_ & _ & Hn & _).
    rewrite Hn. now apply ofRaw_notes_off.
Qed.

Lemma notes_test_holds_witness :
  notesEnabled (Some (mkOptions false)) = false
  /\ map LedgerRow.notes
       (getTransactions "one"
          (ledgerOf
             (Sample.import "one" "mocks/files/data.ofx" None
                (Some (mkOptions true)) [])))
     = [Some "October"; None]
  /\ Forall (fun t => LedgerRow.notes t = None)
       (getTransactions "one"
          (ledgerOf
             (Sample.import "one" "mocks/files/data.ofx" None
                (Some (mkOptions false))
                (deleteTransactions "one"
                   (ledgerOf
                      (Sample.import "one" "mocks/files/data.ofx" None
                         (Some (mkOptions true)) [])))))).
Proof.
  split; [reflexivity|]. split; [reflexivity|].
  exact (notes_test_holds Sample.parsers Sample.dateClose Sample.payeeSimilar
           Sample.newId Sample.JSDate Sample.d_isValid Sample.d_parse
           Sample.d_format "one" "mocks/files/data.ofx" None
           (Some (mkOptions false))
           (ledgerOf (Sample.import "one" "mocks/files/data.ofx" None
                        (Some (mkOptions true)) []))
           eq_refl).
Defined.
